(** * BenchMark: the storage benchmark of [src/App.tsx]

    A shallow embedding of the measurement code of the React Native app
    (the first 80 lines of [src/App.tsx] and of its second revision,
    [src/unnamed/part_000]) together with the part of the JavaScript
    platform that the code calls: [performance.now], [JSON.stringify],
    [JSON.parse], [AsyncStorage], [MMKV], [console.log] and the React
    state hook.

    - JavaScript numbers holding timings are IEEE-754 binary64 values:
      Rocq's primitive [float], with the same operations.
    - JavaScript values that travel through JSON are the inductive [json];
      the integers in them (array indices) are [Z], exact where the
      engine's numbers are exact only up to 2^53.
    - Strings are sequences of code units below 256 ([string]).
    - The platform state is the record [World]; the code is written in the
      monad [M], which threads the world and propagates exceptions.

    One call chain is modelled, with no other task running between its
    [await]s.  Resource limits of the engine (array length, memory, storage
    quotas) are not modelled: both stores accept every write.

    In [M] an awaited call is one step.  The module [Async] embeds the
    four timed functions and [runBenchmark] a second time, with promises,
    [await] and the completion of an AsyncStorage operation as steps of
    their own; the two embeddings give the same record and the same final
    world. *)

From Stdlib Require Import Floats ZArith String Ascii List Lia.
From Stdlib Require Import DecimalFacts DecimalString DecimalPos.
From stdpp Require Import gmap strings list.

Local Open Scope string_scope.

(** ** Characters and decimal numerals *)

Definition dquote : ascii := "034"%char.
Definition backslash : ascii := "092"%char.

Definition is_ws (c : ascii) : bool :=
  Ascii.eqb c " " || Ascii.eqb c "009" || Ascii.eqb c "010" || Ascii.eqb c "013".

Definition is_digit (c : ascii) : bool :=
  (48 <=? nat_of_ascii c)%nat && (nat_of_ascii c <=? 57)%nat.

(** [Number::toString] on an integer below 10^21: its decimal numeral. *)
Definition Number_toString (n : Z) : string :=
  NilEmpty.string_of_int (Z.to_int n).

(** ** JSON values *)

(** The values [JSON.parse] builds and [JSON.stringify] prints.  An object
    keeps its properties in creation order. *)
#[warnings="-register-all"]
Inductive json : Type :=
  | JNull
  | JBool (b : bool)
  | JNum (n : Z)
  | JStr (s : string)
  | JArr (items : list json)
  | JObj (props : list (string * json)).

(** Property read [o.k]. *)
Definition get (k : string) (o : json) : option json :=
  match o with
  | JObj props => snd <$> List.find (fun p => String.eqb (fst p) k) props
  | _ => None
  end.

(** ** JSON.stringify *)

Definition hex_digit (n : nat) : ascii :=
  if (n <? 10)%nat then ascii_of_nat (48 + n) else ascii_of_nat (87 + n).

(** One code unit inside a quoted JSON string (QuoteJSONString). *)
Definition escape_char (c : ascii) : string :=
  if Ascii.eqb c dquote then String backslash (String dquote "")
  else if Ascii.eqb c backslash then String backslash (String backslash "")
  else if Ascii.eqb c "008" then String backslash "b"
  else if Ascii.eqb c "009" then String backslash "t"
  else if Ascii.eqb c "010" then String backslash "n"
  else if Ascii.eqb c "012" then String backslash "f"
  else if Ascii.eqb c "013" then String backslash "r"
  else if (nat_of_ascii c <? 32)%nat then
    String backslash
      (String "u" (String "0" (String "0"
        (String (hex_digit (nat_of_ascii c / 16))
          (String (hex_digit (nat_of_ascii c mod 16)) "")))))
  else String c "".

Fixpoint escape (s : string) : string :=
  match s with
  | EmptyString => ""
  | String c r => escape_char c +:+ escape r
  end.

Definition quote (s : string) : string :=
  String dquote (escape s +:+ String dquote "").

Fixpoint JSON_stringify (v : json) : string :=
  match v with
  | JNull => "null"
  | JBool true => "true"
  | JBool false => "false"
  | JNum n => Number_toString n
  | JStr s => quote s
  | JArr items => "[" +:+ String.concat "," (List.map JSON_stringify items) +:+ "]"
  | JObj props =>
      "{" +:+ String.concat ","
                (List.map (fun p => quote (fst p) +:+ ":" +:+ JSON_stringify (snd p)) props)
          +:+ "}"
  end.

(** ** JSON.parse *)

(** [SyntaxError] is the exception of [JSON.parse].  The two other outcomes
    mark the border of the model: [Unsupported] for a JSON text outside the
    modelled fragment (a number with a fraction or an exponent, a [\u]
    escape above 255, an object key that is an array index, which an engine
    would reorder) and [OutOfFuel] for the recursion bound of the parser,
    which [JSON_parse] never reaches (lemma [JSON_parse_text_fuel]). *)
Inductive Error : Type := SyntaxError | Unsupported | OutOfFuel.

Fixpoint skip_ws (s : string) : string :=
  match s with
  | String c r => if is_ws c then skip_ws r else s
  | EmptyString => s
  end.

Fixpoint take_digits (s : string) : string * string :=
  match s with
  | String c r =>
      if is_digit c then (String c (take_digits r).1, (take_digits r).2) else ("", s)
  | EmptyString => ("", "")
  end.

Definition starts_fraction (s : string) : bool :=
  match s with
  | String c _ => Ascii.eqb c "." || Ascii.eqb c "e" || Ascii.eqb c "E"
  | EmptyString => false
  end.

(** The digits of a JSON number: no leading zero, and only integers are in
    the modelled fragment. *)
Definition leading_zero (ds : string) : bool :=
  match ds with
  | String c (String _ _) => Ascii.eqb c "0"
  | _ => false
  end.

Definition parse_digits (s : string) : Error + (Z * string) :=
  let ds := take_digits s in
  if String.eqb ds.1 "" || leading_zero ds.1 then inl SyntaxError
  else if starts_fraction ds.2 then inl Unsupported
  else match NilEmpty.uint_of_string ds.1 with
       | Some d => inr (Z.of_uint d, ds.2)
       | None => inl SyntaxError
       end.

Definition parse_number (s : string) : Error + (Z * string) :=
  match s with
  | String c r =>
      if Ascii.eqb c "-" then
        match parse_digits r with
        | inr (n, rest) => inr (Z.opp n, rest)
        | inl e => inl e
        end
      else parse_digits s
  | EmptyString => inl SyntaxError
  end.

Definition hex_value (c : ascii) : option nat :=
  let n := nat_of_ascii c in
  if (48 <=? n)%nat && (n <=? 57)%nat then Some (n - 48)%nat
  else if (97 <=? n)%nat && (n <=? 102)%nat then Some (n - 87)%nat
  else if (65 <=? n)%nat && (n <=? 70)%nat then Some (n - 55)%nat
  else None.

Definition hex4 (a b c d : ascii) : option nat :=
  match hex_value a, hex_value b, hex_value c, hex_value d with
  | Some x, Some y, Some z, Some t => Some (((x * 16 + y) * 16 + z) * 16 + t)%nat
  | _, _, _, _ => None
  end.

(** The character a two-character escape stands for. *)
Definition unescape (e : ascii) : option ascii :=
  if Ascii.eqb e dquote then Some dquote
  else if Ascii.eqb e backslash then Some backslash
  else if Ascii.eqb e "/" then Some "/"%char
  else if Ascii.eqb e "b" then Some "008"%char
  else if Ascii.eqb e "t" then Some "009"%char
  else if Ascii.eqb e "n" then Some "010"%char
  else if Ascii.eqb e "f" then Some "012"%char
  else if Ascii.eqb e "r" then Some "013"%char
  else None.

Definition cons_char (c : ascii) (r : Error + (string * string)) : Error + (string * string) :=
  match r with
  | inr (s, rest) => inr (String c s, rest)
  | inl e => inl e
  end.

(** A JSON string after its opening quote, up to and with the closing one. *)
Fixpoint parse_string_body (s : string) : Error + (string * string) :=
  match s with
  | EmptyString => inl SyntaxError
  | String c r =>
      if Ascii.eqb c dquote then inr ("", r)
      else if Ascii.eqb c backslash then
        match r with
        | EmptyString => inl SyntaxError
        | String e r1 =>
            match unescape e with
            | Some ch => cons_char ch (parse_string_body r1)
            | None =>
                if Ascii.eqb e "u" then
                  match r1 with
                  | String h1 (String h2 (String h3 (String h4 r2))) =>
                      match hex4 h1 h2 h3 h4 with
                      | Some n =>
                          if (n <? 256)%nat
                          then cons_char (ascii_of_nat n) (parse_string_body r2)
                          else inl Unsupported
                      | None => inl SyntaxError
                      end
                  | _ => inl SyntaxError
                  end
                else inl SyntaxError
            end
        end
      else if (nat_of_ascii c <? 32)%nat then inl SyntaxError
      else cons_char c (parse_string_body r)
  end.

(** [s] without its prefix [kw]. *)
Fixpoint strip_prefix (kw s : string) : option string :=
  match kw with
  | EmptyString => Some s
  | String a kw' =>
      match s with
      | String b s' => if Ascii.eqb a b then strip_prefix kw' s' else None
      | EmptyString => None
      end
  end.

Definition parse_keyword (kw : string) (v : json) (s : string) : Error + (json * string) :=
  match strip_prefix kw s with
  | Some rest => inr (v, rest)
  | None => inl SyntaxError
  end.

(** A key made of digits only: the engine lists such properties first. *)
Definition index_key (k : string) : bool :=
  match k with
  | EmptyString => false
  | _ => match (take_digits k).2 with EmptyString => true | _ => false end
  end.

(** [o[k] = v] on a property list: a known key keeps its place. *)
Fixpoint set_prop (k : string) (v : json) (props : list (string * json)) : list (string * json) :=
  match props with
  | [] => [(k, v)]
  | p :: ps => if String.eqb (fst p) k then (k, v) :: ps else p :: set_prop k v ps
  end.

Definition make_object (members : list (string * json)) : Error + json :=
  if List.existsb (fun p => index_key (fst p)) members then inl Unsupported
  else inr (JObj (List.fold_left (fun o p => set_prop (fst p) (snd p) o) members [])).

Fixpoint parse_value (fuel : nat) (s : string) {struct fuel} : Error + (json * string) :=
  match fuel with
  | O => inl OutOfFuel
  | S f =>
      match skip_ws s with
      | EmptyString => inl SyntaxError
      | String c r =>
          if Ascii.eqb c "[" then
            match skip_ws r with
            | String c' r' =>
                if Ascii.eqb c' "]" then inr (JArr [], r')
                else match parse_elements f r with
                     | inr (items, rest) => inr (JArr items, rest)
                     | inl e => inl e
                     end
            | EmptyString => inl SyntaxError
            end
          else if Ascii.eqb c "{" then
            match skip_ws r with
            | String c' r' =>
                if Ascii.eqb c' "}" then inr (JObj [], r')
                else match parse_members f r with
                     | inr (members, rest) =>
                         match make_object members with
                         | inr o => inr (o, rest)
                         | inl e => inl e
                         end
                     | inl e => inl e
                     end
            | EmptyString => inl SyntaxError
            end
          else if Ascii.eqb c dquote then
            match parse_string_body r with
            | inr (str, rest) => inr (JStr str, rest)
            | inl e => inl e
            end
          else if Ascii.eqb c "t" then parse_keyword "true" (JBool true) (String c r)
          else if Ascii.eqb c "f" then parse_keyword "false" (JBool false) (String c r)
          else if Ascii.eqb c "n" then parse_keyword "null" JNull (String c r)
          else if Ascii.eqb c "-" || is_digit c then
            match parse_number (String c r) with
            | inr (n, rest) => inr (JNum n, rest)
            | inl e => inl e
            end
          else inl SyntaxError
      end
  end
with parse_elements (fuel : nat) (s : string) {struct fuel} : Error + (list json * string) :=
  match fuel with
  | O => inl OutOfFuel
  | S f =>
      match parse_value f s with
      | inl e => inl e
      | inr (v, r) =>
          match skip_ws r with
          | String c r' =>
              if Ascii.eqb c "," then
                match parse_elements f r' with
                | inr (vs, rest) => inr (v :: vs, rest)
                | inl e => inl e
                end
              else if Ascii.eqb c "]" then inr ([v], r')
              else inl SyntaxError
          | EmptyString => inl SyntaxError
          end
      end
  end
with parse_members (fuel : nat) (s : string) {struct fuel}
    : Error + (list (string * json) * string) :=
  match fuel with
  | O => inl OutOfFuel
  | S f =>
      match skip_ws s with
      | String q r =>
          if Ascii.eqb q dquote then
            match parse_string_body r with
            | inl e => inl e
            | inr (k, r1) =>
                match skip_ws r1 with
                | String c r2 =>
                    if Ascii.eqb c ":" then
                      match parse_value f r2 with
                      | inl e => inl e
                      | inr (v, r3) =>
                          match skip_ws r3 with
                          | String c' r4 =>
                              if Ascii.eqb c' "," then
                                match parse_members f r4 with
                                | inr (ms, rest) => inr ((k, v) :: ms, rest)
                                | inl e => inl e
                                end
                              else if Ascii.eqb c' "}" then inr ([(k, v)], r4)
                              else inl SyntaxError
                          | EmptyString => inl SyntaxError
                          end
                      end
                    else inl SyntaxError
                | EmptyString => inl SyntaxError
                end
            end
          else inl SyntaxError
      | EmptyString => inl SyntaxError
      end
  end.

(** A whole JSON text: one value, then only white space. *)
Definition JSON_parse_text (s : string) : Error + json :=
  match parse_value (2 * String.length s + 2) s with
  | inl e => inl e
  | inr (v, rest) =>
      match skip_ws rest with
      | EmptyString => inr v
      | String _ _ => inl SyntaxError
      end
  end.

(** The argument of [JSON.parse] is first converted to a string: [null]
    (what [AsyncStorage.getItem] gives for a missing key) becomes the text
    [null], [undefined] (what [MMKV.getString] gives) the text [undefined]. *)
Inductive jsstr : Type := Undefined | Null | Str (s : string).

Definition ToString (v : jsstr) : string :=
  match v with
  | Undefined => "undefined"
  | Null => "null"
  | Str s => s
  end.

Definition JSON_parse (v : jsstr) : Error + json := JSON_parse_text (ToString v).

(** ** The platform state and the monad of the code *)

(** What the code asks of the platform, in the order it asks. *)
Inductive Event : Type :=
  | EvNow (t : float)
  | EvAsyncSetItem (key value : string)
  | EvAsyncGetItem (key : string)
  | EvMmkvSet (key value : string)
  | EvMmkvGetString (key : string)
  | EvConsoleLog (label1 : string) (x1 : float) (label2 : string) (x2 : float).

(** [clock] lists the readings [performance.now()] returns, call after
    call, and [ticks] counts the readings taken.  [AsyncStorage] is the
    store of the imported module, [storage] the one of
    [const storage = new MMKV()].  [log] records the platform calls. *)
Record World : Type := mkWorld {
  clock : nat -> float;
  ticks : nat;
  AsyncStorage : gmap string string;
  storage : gmap string string;
  log : list Event
}.

Inductive Outcome (A : Type) : Type :=
  | Return (a : A)
  | Throw (e : Error).
Arguments Return {A} a.
Arguments Throw {A} e.

Definition M (A : Type) : Type := World -> Outcome A * World.

Definition ret {A : Type} (a : A) : M A := fun w => (Return a, w).

Definition throw {A : Type} (e : Error) : M A := fun w => (Throw e, w).

(** Sequencing; an [await]ed call is run to its end before the rest. *)
Definition bind {A B : Type} (c : M A) (k : A -> M B) : M B :=
  fun w =>
    match c w with
    | (Return a, w') => k a w'
    | (Throw e, w') => (Throw e, w')
    end.

Notation "'let!' x ':=' c 'in' k" := (bind c (fun x => k))
  (at level 10, x name, c at level 100, k at level 200).

Definition emit (e : Event) (w : World) : World :=
  mkWorld (clock w) (ticks w) (AsyncStorage w) (storage w) (log w ++ [e]).

Definition performance_now : M float :=
  fun w =>
    let t := clock w (ticks w) in
    (Return t, emit (EvNow t)
                 (mkWorld (clock w) (S (ticks w)) (AsyncStorage w) (storage w) (log w))).

Definition AsyncStorage_setItem (key value : string) : M unit :=
  fun w =>
    (Return tt, emit (EvAsyncSetItem key value)
                  (mkWorld (clock w) (ticks w) (<[key := value]> (AsyncStorage w))
                     (storage w) (log w))).

Definition AsyncStorage_getItem (key : string) : M jsstr :=
  fun w =>
    (Return (match AsyncStorage w !! key with Some s => Str s | None => Null end),
     emit (EvAsyncGetItem key) w).

Definition storage_set (key value : string) : M unit :=
  fun w =>
    (Return tt, emit (EvMmkvSet key value)
                  (mkWorld (clock w) (ticks w) (AsyncStorage w)
                     (<[key := value]> (storage w)) (log w))).

Definition storage_getString (key : string) : M jsstr :=
  fun w =>
    (Return (match storage w !! key with Some s => Str s | None => Undefined end),
     emit (EvMmkvGetString key) w).

Definition console_log (label1 : string) (x1 : float) (label2 : string) (x2 : float) : M unit :=
  fun w => (Return tt, emit (EvConsoleLog label1 x1 label2 x2) w).

(** [JSON.parse] as a call of the code: a parse error is thrown. *)
Definition JSON_parse_call (v : jsstr) : M json :=
  match JSON_parse v with
  | inr j => ret j
  | inl e => throw e
  end.

(** [Math.min] of two numbers: NaN if one is NaN, and -0 below +0. *)
Definition is_neg_zero (x : float) : bool :=
  match classify x with
  | NZero => true
  | _ => false
  end.

Definition Math_min (x y : float) : float :=
  if is_nan x || is_nan y then nan
  else if (x <? y)%float then x
  else if (y <? x)%float then y
  else if is_neg_zero x then x else y.

(** ** The code shared by [src/App.tsx] and [src/unnamed/part_000] *)

Definition asyncStorageWrite (key : string) (value : json) : M float :=
  let! startTime := performance_now in
  let! _ := AsyncStorage_setItem key (JSON_stringify value) in
  let! endTime := performance_now in
  ret (endTime - startTime)%float.

Record ReadResult : Type := mkReadResult { time : float; value : json }.

Definition asyncStorageRead (key : string) : M ReadResult :=
  let! startTime := performance_now in
  let! value := AsyncStorage_getItem key in
  let! endTime := performance_now in
  let! parsed := JSON_parse_call value in
  ret (mkReadResult (endTime - startTime)%float parsed).

Definition mmkvWrite (key : string) (value : json) : M float :=
  let! startTime := performance_now in
  let! _ := storage_set key (JSON_stringify value) in
  let! endTime := performance_now in
  ret (endTime - startTime)%float.

Definition mmkvRead (key : string) : M ReadResult :=
  let! startTime := performance_now in
  let! value := storage_getString key in
  let! endTime := performance_now in
  let! parsed := JSON_parse_call value in
  ret (mkReadResult (endTime - startTime)%float parsed).

(** [Array.from({ length }, (_, i) => f(i))]. *)
Definition Array_from (length : nat) (f : nat -> json) : json :=
  JArr (List.map f (seq 0 length)).

(** The [data] of [runBenchmark]:
    [Array.from({ length: size }, (_, i) => ({ id: i, value: `Data ${i}` }))]. *)
Definition data (size : nat) : json :=
  Array_from size
    (fun i => JObj [("id", JNum (Z.of_nat i));
                    ("value", JStr ("Data " +:+ Number_toString (Z.of_nat i)))]).

(** ** [src/App.tsx] *)

Module App.

Record BenchmarkResult : Type := mkBenchmarkResult {
  size : nat;
  asyncWriteTime : float;
  asyncReadTime : float;
  asyncAvg : float;
  mmkvWriteTime : float;
  mmkvReadTime : float;
  mmkvAvg : float;
  writeDifference : float;
  readDifference : float
}.

Definition runBenchmark (size : nat) : M BenchmarkResult :=
  let data := data size in
  let! asyncWriteTime := asyncStorageWrite "asyncKey" data in
  let! asyncReadResult := asyncStorageRead "asyncKey" in
  let! mmkvWriteTime := mmkvWrite "mmkvKey" data in
  let! mmkvReadResult := mmkvRead "mmkvKey" in
  let asyncAvg := ((asyncWriteTime + time asyncReadResult) / 2)%float in
  let mmkvAvg := ((mmkvWriteTime + time mmkvReadResult) / 2)%float in
  let writeDifference := abs (asyncWriteTime - mmkvWriteTime) in
  let readDifference := abs (time asyncReadResult - time mmkvReadResult) in
  let! _ := console_log "AsyncStorage Read: " (time asyncReadResult)
                        "MMKV Read: " (time mmkvReadResult) in
  let! _ := console_log "AsyncStorage Write: " asyncWriteTime
                        "MMKV Write: " mmkvWriteTime in
  ret (mkBenchmarkResult size asyncWriteTime (time asyncReadResult) asyncAvg
         mmkvWriteTime (time mmkvReadResult) mmkvAvg writeDifference readDifference).

(** [results] is the state of [useState([])]; the handler returns the
    state that [setResults(prevResults => [...prevResults, result])]
    installs. *)
Definition handleRunTests (size : nat) (results : list BenchmarkResult)
    : M (list BenchmarkResult) :=
  let! result := runBenchmark size in
  ret (results ++ [result])%list.

End App.

(** ** [src/unnamed/part_000] *)

Module Part000.

Record BenchmarkResult : Type := mkBenchmarkResult {
  size : nat;
  asyncWriteTime : float;
  asyncReadTime : float;
  mmkvWriteTime : float;
  mmkvReadTime : float;
  writeDifference : float;
  readDifference : float;
  writePercentageDifference : float;
  readPercentageDifference : float
}.

Definition runBenchmark (size : nat) : M BenchmarkResult :=
  let data := data size in
  let! asyncWriteTime := asyncStorageWrite "asyncKey" data in
  let! asyncReadResult := asyncStorageRead "asyncKey" in
  let! mmkvWriteTime := mmkvWrite "mmkvKey" data in
  let! mmkvReadResult := mmkvRead "mmkvKey" in
  let writeDifference := abs (asyncWriteTime - mmkvWriteTime) in
  let readDifference := abs (time asyncReadResult - time mmkvReadResult) in
  let writePercentageDifference :=
    (if asyncWriteTime <? mmkvWriteTime
     then (writeDifference / asyncWriteTime) * 100
     else (writeDifference / mmkvWriteTime) * 100)%float in
  let readPercentageDifference :=
    (if time asyncReadResult <? time mmkvReadResult
     then (readDifference / time asyncReadResult) * 100
     else (readDifference / time mmkvReadResult) * 100)%float in
  ret (mkBenchmarkResult size asyncWriteTime (time asyncReadResult)
         mmkvWriteTime (time mmkvReadResult) writeDifference readDifference
         writePercentageDifference readPercentageDifference).

Definition handleRunTests (size : nat) (results : list BenchmarkResult)
    : M (list BenchmarkResult) :=
  let! result := runBenchmark size in
  ret (results ++ [result])%list.

End Part000.

(** ** Predicates on binary64 values used in the statements *)

(** A zero or a finite number, and a number that is not below zero. *)
Definition SFfinite (x : spec_float) : bool :=
  match x with
  | S754_zero _ | S754_finite _ _ _ => true
  | _ => false
  end.

Definition SFnonneg (x : spec_float) : Prop := SFleb (S754_zero false) x = true.

(** ** Predicates on JSON values and texts used in the statements *)

(** A string that a number can stand in front of: it opens with neither a
    digit nor the start of a fraction or an exponent. *)
Definition number_end (s : string) : bool :=
  match s with
  | String c _ => negb (is_digit c) && negb (starts_fraction s)
  | EmptyString => true
  end.

Definition all_digits (s : string) : Prop :=
  Forall (fun c => is_digit c = true) (list_ascii_of_string s).

(** The number of parser calls a value takes. *)
Fixpoint weight (v : json) : nat :=
  match v with
  | JArr items => S (list_sum (List.map (fun x => S (weight x)) items))
  | JObj props => S (list_sum (List.map (fun p => S (weight (snd p))) props))
  | _ => 1
  end.

Fixpoint distinct_keys (props : list (string * json)) : bool :=
  match props with
  | [] => true
  | p :: ps => negb (List.existsb (fun q => String.eqb (fst q) (fst p)) ps) && distinct_keys ps
  end.

(** The values of the modelled fragment: the keys of an object are
    distinct and none is an array index. *)
Fixpoint plain (v : json) : bool :=
  match v with
  | JArr items => List.forallb plain items
  | JObj props =>
      List.forallb (fun p => negb (index_key (fst p)) && plain (snd p)) props
      && distinct_keys props
  | _ => true
  end.

(** What the text of a value can open with: neither white space nor a
    closing bracket or brace. *)
Definition value_start (c : ascii) : bool :=
  negb (is_ws c) && negb (Ascii.eqb c "]") && negb (Ascii.eqb c "}").

(** The text between the brackets of an array and the braces of an object. *)
Definition elements_text (items : list json) : string :=
  String.concat "," (List.map JSON_stringify items).

Definition members_text (props : list (string * json)) : string :=
  String.concat ","
    (List.map (fun p => quote (fst p) +:+ ":" +:+ JSON_stringify (snd p)) props).

(** ** Assumption on the platform clock *)

(** [performance.now()] is monotonic: its readings are numbers and none is
    below the one before. *)
Definition clock_monotonic (w : World) : Prop :=
  forall i, is_finite (clock w i) = true /\ (clock w i <=? clock w (S i))%float = true.

(** The reading [performance.now()] returns at its [i]-th next call. *)
Definition reading (w : World) (i : nat) : float := clock w (i + ticks w).

(** What a timed call measures when its timer starts at reading [i]. *)
Definition elapsed (w : World) (i : nat) : float :=
  (reading w (S i) - reading w i)%float.

(** The platform calls of the four timed operations of one run that starts
    in [w] with a payload of text [text]. *)
Definition timed_calls (w : World) (text : string) : list Event :=
  [EvNow (reading w 0); EvAsyncSetItem "asyncKey" text; EvNow (reading w 1);
   EvNow (reading w 2); EvAsyncGetItem "asyncKey"; EvNow (reading w 3);
   EvNow (reading w 4); EvMmkvSet "mmkvKey" text; EvNow (reading w 5);
   EvNow (reading w 6); EvMmkvGetString "mmkvKey"; EvNow (reading w 7)].

(** A value is the payload of [size] items: an array of that length whose
    item at index [i] has [id] equal to [i] and [value] equal to the text
    [Data ] followed by [i]. *)
Definition is_payload (size : nat) (v : json) : Prop :=
  exists items,
    v = JArr items /\ length items = size
    /\ forall i, (i < size)%nat ->
         exists o, items !! i = Some o
                   /\ get "id" o = Some (JNum (Z.of_nat i))
                   /\ get "value" o
                      = Some (JStr ("Data " +:+ Number_toString (Z.of_nat i))).

(** ** A world to run the code in *)

Definition example_clock (i : nat) : float :=
  match i with
  | 0 => 100
  | 1 => 103.5
  | 2 => 104
  | 3 => 104.25
  | 4 => 110
  | 5 => 110.5
  | 6 => 111
  | 7 => 111.125
  | _ => 120
  end%float.

(** Nothing stored yet, no reading taken. *)
Definition example_world : World := mkWorld example_clock 0 ∅ ∅ [].

(** A text written with single quotes for the double quotes of JSON. *)
Definition sq (s : string) : string :=
  string_of_list_ascii
    (List.map (fun c => if Ascii.eqb c "'" then dquote else c) (list_ascii_of_string s)).

(** ** The screen of [App]: the buttons and the charts *)

(** What a read gave, its timing left out. *)
Definition decoded (o : Outcome ReadResult) : Error + json :=
  match o with
  | Return r => inr (value r)
  | Throw e => inl e
  end.

(** The three [Button]s of the screen, by their titles. *)
Inductive Button : Type := SmallTest | MediumTest | LargeTest.

(** The [onPress] of a button in [src/App.tsx]:
    [handleRunTests(10)], [handleRunTests(1000)], [handleRunTests(100000)]. *)
#[warnings="-abstract-large-number"]
Definition App_onPress (b : Button) : list App.BenchmarkResult -> M (list App.BenchmarkResult) :=
  match b with
  | SmallTest => App.handleRunTests 10
  | MediumTest => App.handleRunTests 1000
  | LargeTest => App.handleRunTests 100000
  end.

(** The [onPress] of a button in [src/unnamed/part_000], where the large
    test has 10000 items. *)
#[warnings="-abstract-large-number"]
Definition Part000_onPress (b : Button)
    : list Part000.BenchmarkResult -> M (list Part000.BenchmarkResult) :=
  match b with
  | SmallTest => Part000.handleRunTests 10
  | MediumTest => Part000.handleRunTests 1000
  | LargeTest => Part000.handleRunTests 10000
  end.

(** The size of the test a button starts, in each revision. *)
#[warnings="-abstract-large-number"]
Definition App_buttonSize (b : Button) : nat :=
  match b with
  | SmallTest => 10
  | MediumTest => 1000
  | LargeTest => 100000
  end.

#[warnings="-abstract-large-number"]
Definition Part000_buttonSize (b : Button) : nat :=
  match b with
  | SmallTest => 10
  | MediumTest => 1000
  | LargeTest => 10000
  end.

(** Presses one after the other, each handler run to its end before the
    next press, on the state [results] of the component. *)
Fixpoint presses {R : Type} (onPress : Button -> list R -> M (list R))
    (bs : list Button) (results : list R) : M (list R) :=
  match bs with
  | [] => ret results
  | b :: bs' =>
      let! results' := onPress b results in
      presses onPress bs' results'
  end.

(** The [data] prop of the [BarChart] of one result card. *)
Record ChartData : Type := mkChartData {
  labels : list string;
  datasets : list (list float)
}.

Definition App_barChartData (result : App.BenchmarkResult) : ChartData :=
  mkChartData ["Async Write"; "Async Read"; "MMKV Write"; "MMKV Read"]
    [[App.asyncWriteTime result; App.asyncReadTime result;
      App.mmkvWriteTime result; App.mmkvReadTime result]].

Definition Part000_barChartData (result : Part000.BenchmarkResult) : ChartData :=
  mkChartData ["Async Write"; "Async Read"; "MMKV Write"; "MMKV Read"]
    [[Part000.asyncWriteTime result; Part000.asyncReadTime result;
      Part000.mmkvWriteTime result; Part000.mmkvReadTime result]].

(** The charts on the screen: [results.length > 0 && results.map(...)]
    draws one card per result, in the order of the history, and nothing
    for an empty history. *)
Definition App_charts (results : list App.BenchmarkResult) : option (list ChartData) :=
  if (0 <? length results)%nat then Some (List.map App_barChartData results) else None.

(** The stores after the presses [bs]: as they were when no button was
    pressed, and else with the payload of the last test under the two
    keys. *)
Definition stores_after (sizeOf : Button -> nat) (bs : list Button) (w : World)
    : gmap string string * gmap string string :=
  match last bs with
  | None => (AsyncStorage w, storage w)
  | Some b =>
      (<["asyncKey" := JSON_stringify (data (sizeOf b))]> (AsyncStorage w),
       <["mmkvKey" := JSON_stringify (data (sizeOf b))]> (storage w))
  end.

(** The four bars are the timings of four calls in a row, the first of
    which started its timer at reading [i]. *)
Definition bars_measured (w : World) (c : ChartData) : Prop :=
  exists i, datasets c = [[elapsed w i; elapsed w (2 + i); elapsed w (4 + i); elapsed w (6 + i)]].

(** A world whose clock stands still: every reading is the same. *)
Definition still_world : World := mkWorld (fun _ => 250%float) 0 ∅ ∅ [].

(** A world in which both writes take the same time. *)
Definition even_clock (i : nat) : float :=
  match i with
  | 0 => 10
  | 1 => 12
  | 2 => 13
  | 3 => 13.5
  | 4 => 20
  | 5 => 22
  | 6 => 23
  | 7 => 23.5
  | _ => 30
  end%float.

Definition even_world : World := mkWorld even_clock 0 ∅ ∅ [].

(** A world in which the AsyncStorage write takes no time. *)
Definition instant_clock (i : nat) : float :=
  match i with
  | 0 => 10
  | 1 => 10
  | 2 => 13
  | 3 => 13.5
  | 4 => 20
  | 5 => 22
  | 6 => 23
  | 7 => 23
  | _ => 30
  end%float.

Definition instant_world : World := mkWorld instant_clock 0 ∅ ∅ [].

(** A world with text under both keys that is not JSON. *)
Definition stale_world : World :=
  mkWorld example_clock 0 {["asyncKey" := "{oops"; "other" := "7"]} {["mmkvKey" := "]"]} [].

(** The readings of the clock are above zero: [performance.now()] counts
    from the time origin of the app. *)
Definition clock_positive (w : World) : Prop :=
  forall i, (0 <? clock w i)%float = true.

(** The sign bit is clear, or the value is NaN. *)
Definition SFunsigned (x : spec_float) : bool :=
  match x with
  | S754_zero s | S754_infinity s | S754_finite s _ _ => negb s
  | S754_nan => true
  end.

(** A stored text, if any, is in the modelled fragment of JSON: the model
    of [JSON.parse] says what the engine does with it. *)
Definition modelled_text (stored : option string) : Prop :=
  forall s, stored = Some s -> JSON_parse (Str s) <> inl Unsupported.

(** A world in which the AsyncStorage write is timed between the readings
    0 and -0. *)
Definition neg_zero_clock (i : nat) : float :=
  match i with
  | 0 => 0
  | 1 => neg_zero
  | 2 => 1
  | 3 => 1.5
  | 4 => 2
  | 5 => 4
  | 6 => 5
  | 7 => 5
  | _ => 6
  end%float.

Definition neg_zero_world : World := mkWorld neg_zero_clock 0 ∅ ∅ [].

(** ** The code with its promises *)

(** A finer embedding of the four timed functions and of [runBenchmark],
    in both revisions, in which a promise is a value of the program and
    [await] one of its steps.  A program is a tree of platform calls; the
    functions [run] and [schedule] below execute it as the engine does:
    an [async] function runs up to its first [await] when it is called
    and gives its caller a promise; a task that awaits is suspended until
    the promise is settled; an AsyncStorage operation is issued by the
    call and completed later, when no task can run, and its completion
    settles its promise.  Here a call that is not awaited differs from one
    that is: the caller goes on while the operation is still in flight. *)
Module Async.

Definition Promise : Type := nat.

(** What a promise is settled with. *)
Inductive Val : Type :=
  | VText (v : jsstr)
  | VNumber (x : float)
  | VReadResult (r : ReadResult)
  | VBenchmarkResult (r : App.BenchmarkResult)
  | VBenchmarkResult000 (r : Part000.BenchmarkResult).

Inductive Prog : Type :=
  | Ret (v : Val)
  | Raise (e : Error)
  | PerformanceNow (k : float -> Prog)
  | SetItem (key value : string) (k : Promise -> Prog)
  | GetItem (key : string) (k : Promise -> Prog)
  | StorageSet (key value : string) (k : Prog)
  | StorageGetString (key : string) (k : jsstr -> Prog)
  | ConsoleLog (label1 : string) (x1 : float) (label2 : string) (x2 : float) (k : Prog)
  | Call (body : Prog) (k : Promise -> Prog)
  | Await (p : Promise) (k : Val -> Prog).

(** [await] where the code uses the value as a text, a number or the
    result of a read; a value of another kind is outside the model. *)
Definition AwaitText (p : Promise) (k : jsstr -> Prog) : Prog :=
  Await p (fun v => match v with VText t => k t | _ => Raise Unsupported end).

Definition AwaitNumber (p : Promise) (k : float -> Prog) : Prog :=
  Await p (fun v => match v with VNumber x => k x | _ => Raise Unsupported end).

Definition AwaitReadResult (p : Promise) (k : ReadResult -> Prog) : Prog :=
  Await p (fun v => match v with VReadResult r => k r | _ => Raise Unsupported end).

Notation "'let*' x ':=' c 'in' k" := (c (fun x => k))
  (at level 10, x name, c at level 100, k at level 200).
Notation "'do*' c 'in' k" := (c k)
  (at level 10, c at level 100, k at level 200).

(** *** The code *)

(** [src/App.tsx]; the four timed functions are the same in
    [src/unnamed/part_000]. *)

Definition asyncStorageWrite (key : string) (value : json) : Prog :=
  let* startTime := PerformanceNow in
  let* promise := SetItem key (JSON_stringify value) in
  let* _ := Await promise in
  let* endTime := PerformanceNow in
  Ret (VNumber (endTime - startTime)).

Definition asyncStorageRead (key : string) : Prog :=
  let* startTime := PerformanceNow in
  let* promise := GetItem key in
  let* value := AwaitText promise in
  let* endTime := PerformanceNow in
  match JSON_parse value with
  | inr parsed => Ret (VReadResult (mkReadResult (endTime - startTime) parsed))
  | inl e => Raise e
  end.

(** The two MMKV functions are not [async]: they return to the code that
    follows the call, [k]. *)
Definition mmkvWrite (key : string) (value : json) (k : float -> Prog) : Prog :=
  let* startTime := PerformanceNow in
  do* StorageSet key (JSON_stringify value) in
  let* endTime := PerformanceNow in
  k (endTime - startTime)%float.

Definition mmkvRead (key : string) (k : ReadResult -> Prog) : Prog :=
  let* startTime := PerformanceNow in
  let* value := StorageGetString key in
  let* endTime := PerformanceNow in
  match JSON_parse value with
  | inr parsed => k (mkReadResult (endTime - startTime)%float parsed)
  | inl e => Raise e
  end.

Definition runBenchmark (size : nat) : Prog :=
  let data := data size in
  let* asyncWritePromise := Call (asyncStorageWrite "asyncKey" data) in
  let* asyncWriteTime := AwaitNumber asyncWritePromise in
  let* asyncReadPromise := Call (asyncStorageRead "asyncKey") in
  let* asyncReadResult := AwaitReadResult asyncReadPromise in
  let* mmkvWriteTime := mmkvWrite "mmkvKey" data in
  let* mmkvReadResult := mmkvRead "mmkvKey" in
  let asyncAvg := ((asyncWriteTime + time asyncReadResult) / 2)%float in
  let mmkvAvg := ((mmkvWriteTime + time mmkvReadResult) / 2)%float in
  let writeDifference := abs (asyncWriteTime - mmkvWriteTime) in
  let readDifference := abs (time asyncReadResult - time mmkvReadResult) in
  do* ConsoleLog "AsyncStorage Read: " (time asyncReadResult)
                 "MMKV Read: " (time mmkvReadResult) in
  do* ConsoleLog "AsyncStorage Write: " asyncWriteTime
                 "MMKV Write: " mmkvWriteTime in
  Ret (VBenchmarkResult
         (App.mkBenchmarkResult size asyncWriteTime (time asyncReadResult) asyncAvg
            mmkvWriteTime (time mmkvReadResult) mmkvAvg writeDifference readDifference)).

(** [runBenchmark] of [src/unnamed/part_000]. *)
Definition Part000_runBenchmark (size : nat) : Prog :=
  let data := data size in
  let* asyncWritePromise := Call (asyncStorageWrite "asyncKey" data) in
  let* asyncWriteTime := AwaitNumber asyncWritePromise in
  let* asyncReadPromise := Call (asyncStorageRead "asyncKey") in
  let* asyncReadResult := AwaitReadResult asyncReadPromise in
  let* mmkvWriteTime := mmkvWrite "mmkvKey" data in
  let* mmkvReadResult := mmkvRead "mmkvKey" in
  let writeDifference := abs (asyncWriteTime - mmkvWriteTime) in
  let readDifference := abs (time asyncReadResult - time mmkvReadResult) in
  let writePercentageDifference :=
    (if asyncWriteTime <? mmkvWriteTime
     then (writeDifference / asyncWriteTime) * 100
     else (writeDifference / mmkvWriteTime) * 100)%float in
  let readPercentageDifference :=
    (if time asyncReadResult <? time mmkvReadResult
     then (readDifference / time asyncReadResult) * 100
     else (readDifference / time mmkvReadResult) * 100)%float in
  Ret (VBenchmarkResult000
         (Part000.mkBenchmarkResult size asyncWriteTime (time asyncReadResult)
            mmkvWriteTime (time mmkvReadResult) writeDifference readDifference
            writePercentageDifference readPercentageDifference)).

(** *** The engine *)

(** An AsyncStorage operation in flight. *)
Inductive Op : Type :=
  | OpSetItem (key value : string)
  | OpGetItem (key : string).

(** What happens, in order: a clock reading, an AsyncStorage operation
    issued under its promise, the completion of the operation of a
    promise, a call of the MMKV store, a line of the console. *)
Inductive AEvent : Type :=
  | ANow (t : float)
  | AIssued (p : Promise) (op : Op)
  | ACompleted (p : Promise)
  | AMmkvSet (key value : string)
  | AMmkvGetString (key : string)
  | AConsoleLog (label1 : string) (x1 : float) (label2 : string) (x2 : float).

(** A suspended task: the promise it awaits, what it does with the
    outcome, and the promise of its own [async] function. *)
Record Waiter : Type := mkWaiter {
  awaited : Promise;
  resume : Outcome Val -> Prog;
  owner : Promise
}.

Record State : Type := mkState {
  world : World;
  trace : list AEvent;
  settled : list (Promise * Outcome Val);
  inflight : list (Promise * Op);
  waiting : list Waiter;
  ready : list (Prog * Promise);
  next : Promise
}.

(** What follows an [await]: the code with the value, or the exception
    of a rejected promise, thrown again. *)
Definition after (k : Val -> Prog) (o : Outcome Val) : Prog :=
  match o with
  | Return v => k v
  | Throw e => Raise e
  end.

Definition find_settled (p : Promise) (l : list (Promise * Outcome Val))
    : option (Outcome Val) :=
  match List.find (fun e => Nat.eqb (fst e) p) l with
  | Some e => Some (snd e)
  | None => None
  end.

(** Settling a promise makes the tasks that await it ready to go on. *)
Definition settle (p : Promise) (o : Outcome Val) (st : State) : State :=
  mkState (world st) (trace st) ((p, o) :: settled st) (inflight st)
    (List.filter (fun wt => negb (Nat.eqb (awaited wt) p)) (waiting st))
    (ready st ++ List.map (fun wt => (resume wt o, owner wt))
                   (List.filter (fun wt => Nat.eqb (awaited wt) p) (waiting st)))
    (next st).

Definition record (e : AEvent) (w : World) (st : State) : State :=
  mkState w (trace st ++ [e]) (settled st) (inflight st) (waiting st) (ready st) (next st).

(** A task runs until it returns, throws or awaits.  The promise [own] is
    the one of its [async] function. *)
Fixpoint run (prog : Prog) (own : Promise) (st : State) : State :=
  match prog with
  | Ret v => settle own (Return v) st
  | Raise e => settle own (Throw e) st
  | PerformanceNow k =>
      match performance_now (world st) with
      | (Return t, w) => run (k t) own (record (ANow t) w st)
      | (Throw e, w) => settle own (Throw e) st
      end
  | SetItem key value k =>
      run (k (next st)) own
        (mkState (world st) (trace st ++ [AIssued (next st) (OpSetItem key value)])
           (settled st) (inflight st ++ [(next st, OpSetItem key value)])
           (waiting st) (ready st) (S (next st)))
  | GetItem key k =>
      run (k (next st)) own
        (mkState (world st) (trace st ++ [AIssued (next st) (OpGetItem key)])
           (settled st) (inflight st ++ [(next st, OpGetItem key)])
           (waiting st) (ready st) (S (next st)))
  | StorageSet key value k =>
      run k own (record (AMmkvSet key value) (storage_set key value (world st)).2 st)
  | StorageGetString key k =>
      match storage_getString key (world st) with
      | (Return v, w) => run (k v) own (record (AMmkvGetString key) w st)
      | (Throw e, w) => settle own (Throw e) st
      end
  | ConsoleLog label1 x1 label2 x2 k =>
      run k own
        (record (AConsoleLog label1 x1 label2 x2)
           (console_log label1 x1 label2 x2 (world st)).2 st)
  | Call body k =>
      run (k (next st)) own
        (run body (next st)
           (mkState (world st) (trace st) (settled st) (inflight st) (waiting st)
              (ready st) (S (next st))))
  | Await p k =>
      match find_settled p (settled st) with
      | Some o =>
          mkState (world st) (trace st) (settled st) (inflight st) (waiting st)
            (ready st ++ [(after k o, own)]) (next st)
      | None =>
          mkState (world st) (trace st) (settled st) (inflight st)
            (waiting st ++ [mkWaiter p (after k) own]) (ready st) (next st)
      end
  end.

(** The completion of an operation in flight: its effect on the store,
    then the settling of its promise. *)
Definition complete (p : Promise) (op : Op) (st : State) : State :=
  match op with
  | OpSetItem key value =>
      settle p (Return (VText Undefined))
        (record (ACompleted p) (AsyncStorage_setItem key value (world st)).2 st)
  | OpGetItem key =>
      match AsyncStorage_getItem key (world st) with
      | (Return v, w) => settle p (Return (VText v)) (record (ACompleted p) w st)
      | (Throw e, w) => settle p (Throw e) (record (ACompleted p) w st)
      end
  end.

(** The [i]-th element of a list, the last one when [i] is too large, and
    the list without it. *)
Fixpoint take_at {A : Type} (i : nat) (l : list A) : option (A * list A) :=
  match l with
  | [] => None
  | x :: l' =>
      match i with
      | O => Some (x, l')
      | S i' =>
          match take_at i' l' with
          | Some (y, rest) => Some (y, x :: rest)
          | None => Some (x, l')
          end
      end
  end.

(** The loop of the engine.  A ready task goes first.  When none is
    ready, one of the operations in flight completes; which one is up to
    the platform: [pick] stands for its choice. *)
Fixpoint schedule (fuel : nat) (pick : State -> nat) (st : State) : State :=
  match fuel with
  | O => st
  | S n =>
      match ready st with
      | (prog, own) :: rest =>
          schedule n pick
            (run prog own
               (mkState (world st) (trace st) (settled st) (inflight st) (waiting st)
                  rest (next st)))
      | [] =>
          match take_at (pick st) (inflight st) with
          | Some ((p, op), rest) =>
              schedule n pick
                (complete p op
                   (mkState (world st) (trace st) (settled st) rest (waiting st)
                      (ready st) (next st)))
          | None => st
          end
      end
  end.

(** The call of an [async] function from the top: its promise is 0. *)
Definition exec (fuel : nat) (pick : State -> nat) (prog : Prog) (w : World) : State :=
  schedule fuel pick (run prog 0 (mkState w [] [] [] [] [] 1)).

End Async.

(** * The model on concrete inputs *)

Example stringify_data_2 :
  JSON_stringify (data 2) = sq "[{'id':0,'value':'Data 0'},{'id':1,'value':'Data 1'}]".
Proof. reflexivity. Qed.

Example stringify_escapes :
  JSON_stringify (JArr [JStr (String "010" (String dquote "é")); JNum (-12); JObj []])
  = String "[" (String dquote (String backslash (String "n" (String backslash
      (String dquote ("é" +:+ String dquote ",-12,{}]")))))).
Proof. reflexivity. Qed.

Example parse_spaced_text :
  JSON_parse (Str (sq " { 'a' : [ 1 , -20 , true ] , 'b' : 'xA\ny' , 'c' : null } "))
  = inr (JObj [("a", JArr [JNum 1; JNum (-20); JBool true]);
               ("b", JStr ("xA" +:+ String "010" "y"));
               ("c", JNull)]).
Proof. reflexivity. Qed.

Example parse_duplicate_key :
  JSON_parse (Str (sq "{'a':1,'b':2,'a':3}")) = inr (JObj [("a", JNum 3); ("b", JNum 2)]).
Proof. reflexivity. Qed.

Example parse_null : JSON_parse Null = inr JNull.
Proof. reflexivity. Qed.

Example parse_undefined : JSON_parse Undefined = inl SyntaxError.
Proof. reflexivity. Qed.

Example parse_errors :
  JSON_parse (Str "") = inl SyntaxError
  /\ JSON_parse (Str "[1,]") = inl SyntaxError
  /\ JSON_parse (Str "01") = inl SyntaxError
  /\ JSON_parse (Str "nul") = inl SyntaxError
  /\ JSON_parse (Str "[] []") = inl SyntaxError
  /\ JSON_parse (Str "1.5") = inl Unsupported
  /\ JSON_parse (Str (sq "{'0':1}")) = inl Unsupported.
Proof. repeat split. Qed.

Example Math_min_cases :
  Math_min 0 neg_zero = neg_zero /\ Math_min neg_zero 0 = neg_zero
  /\ Math_min 2.5 1 = 1%float /\ Math_min nan 1 = nan /\ Math_min 1 infinity = 1%float.
Proof. repeat split. Qed.

Example run_App_2 :
  (App.runBenchmark 2 example_world).1
  = Return (App.mkBenchmarkResult 2 3.5 0.25 1.875 0.5 0.125 0.3125 3 0.125).
Proof. reflexivity. Qed.

Example run_Part000_2 :
  (Part000.runBenchmark 2 example_world).1
  = Return (Part000.mkBenchmarkResult 2 3.5 0.25 0.5 0.125 3 0.125 600 100).
Proof. reflexivity. Qed.

Example handleRunTests_twice :
  let first := App.handleRunTests 10 [] example_world in
  match first.1 with
  | Return results =>
      match (App.handleRunTests 1000 results first.2).1 with
      | Return results' => List.map App.size results' = [10; 1000]%nat
      | Throw _ => False
      end
  | Throw _ => False
  end.
Proof. vm_compute. reflexivity. Qed.

(** * Facts on binary64 arithmetic *)

Section SpecFloatFacts.

Variables prec emax : Z.

Lemma shr_1_nonneg mrs : (0 <= shr_m mrs)%Z -> (0 <= shr_m (shr_1 mrs))%Z.
Proof.
  destruct mrs as [m r s]; simpl. intros H.
  destruct m as [|[p|p|]|[p|p|]]; simpl in *; lia.
Qed.

Lemma iter_pos_shr_1_nonneg p mrs :
  (0 <= shr_m mrs)%Z -> (0 <= shr_m (SpecFloat.iter_pos shr_1 p mrs))%Z.
Proof.
  revert mrs. induction p as [p IH|p IH|]; intros mrs H; simpl.
  - apply IH, IH, shr_1_nonneg, H.
  - apply IH, IH, H.
  - apply shr_1_nonneg, H.
Qed.

Lemma shr_fexp_nonneg m e l :
  (0 <= m)%Z -> (0 <= shr_m (shr_fexp prec emax m e l).1)%Z.
Proof.
  intros H. unfold shr_fexp, shr.
  assert (H0 : (0 <= shr_m (shr_record_of_loc m l))%Z).
  { destruct l as [|[]]; simpl; exact H. }
  destruct (fexp prec emax (Zdigits2 m + e) - e)%Z; simpl; auto.
  apply iter_pos_shr_1_nonneg, H0.
Qed.

Lemma round_nearest_even_nonneg m l : (0 <= m)%Z -> (0 <= round_nearest_even m l)%Z.
Proof.
  intros H. unfold round_nearest_even.
  destruct l as [|[]]; try lia. destruct (Z.even m); lia.
Qed.

Lemma binary_round_aux_nonneg m e l :
  (0 <= m)%Z -> SFnonneg (binary_round_aux prec emax false m e l).
Proof.
  intros H. unfold binary_round_aux.
  pose proof (shr_fexp_nonneg m e l H) as H1.
  destruct (shr_fexp prec emax m e l) as [mrs' e'] eqn:E1. simpl in H1.
  pose proof (shr_fexp_nonneg _ e' loc_Exact
                (round_nearest_even_nonneg _ (loc_of_shr_record mrs') H1)) as H2.
  destruct (shr_fexp prec emax (round_nearest_even _ _) e' loc_Exact) as [mrs'' e''].
  simpl in H2.
  destruct (shr_m mrs'') as [|p|p]; try lia; try reflexivity.
  destruct (e'' <=? emax - prec)%Z; reflexivity.
Qed.

Lemma binary_normalize_nonneg m e :
  (0 <= m)%Z -> SFnonneg (binary_normalize prec emax m e false).
Proof.
  intros H. destruct m as [|p|p]; try lia; simpl; try reflexivity.
  unfold binary_round.
  destruct (shl_align p e _) as [mz ez].
  apply binary_round_aux_nonneg. lia.
Qed.

Lemma digits2_pos_bounds m :
  (2 ^ (Z.pos (digits2_pos m) - 1) <= Z.pos m < 2 ^ Z.pos (digits2_pos m))%Z.
Proof.
  induction m as [p IH|p IH|]; simpl digits2_pos.
  - rewrite Pos2Z.inj_succ.
    replace (Z.succ (Z.pos (digits2_pos p)) - 1)%Z
      with (Z.succ (Z.pos (digits2_pos p) - 1)) by lia.
    rewrite !Z.pow_succ_r by lia. lia.
  - rewrite Pos2Z.inj_succ.
    replace (Z.succ (Z.pos (digits2_pos p)) - 1)%Z
      with (Z.succ (Z.pos (digits2_pos p) - 1)) by lia.
    rewrite !Z.pow_succ_r by lia. lia.
  - simpl. lia.
Qed.

Lemma iter_xO_pow2 m d : Z.pos (Pos.iter xO m d) = (Z.pos m * 2 ^ Z.pos d)%Z.
Proof.
  induction d as [|d IH] using Pos.peano_ind.
  - simpl. lia.
  - rewrite Pos.iter_succ, Pos2Z.inj_succ, Z.pow_succ_r by lia.
    rewrite Pos2Z.inj_xO, IH. lia.
Qed.

Lemma shl_align_fst m e e' :
  (e' <= e)%Z -> Z.pos (shl_align m e e').1 = (Z.pos m * 2 ^ (e - e'))%Z.
Proof.
  intros H. unfold shl_align.
  destruct (e' - e)%Z as [|d|d] eqn:E; try lia.
  - replace (e - e')%Z with 0%Z by lia. simpl. lia.
  - simpl. rewrite iter_xO_pow2. f_equal. f_equal. lia.
Qed.

(** A canonical mantissa has at most [prec] digits, exactly [prec] above
    the least exponent. *)
Lemma canonical_digits m e :
  canonical_mantissa prec emax m e = true ->
  (Z.pos (digits2_pos m) <= prec /\ SpecFloat.emin prec emax <= e /\
   (SpecFloat.emin prec emax < e -> Z.pos (digits2_pos m) = prec))%Z.
Proof.
  unfold canonical_mantissa, fexp, SpecFloat.emin. intros H. apply Z.eqb_eq in H. lia.
Qed.

(** With [e2 < e1], the mantissa at [e1] outweighs the one at [e2]. *)
Lemma canonical_exponent_lt m1 e1 m2 e2 :
  canonical_mantissa prec emax m1 e1 = true ->
  canonical_mantissa prec emax m2 e2 = true ->
  (e2 < e1)%Z ->
  (Z.pos m2 < Z.pos m1 * 2 ^ (e1 - e2))%Z.
Proof.
  intros H1 H2 Hlt.
  apply canonical_digits in H1 as (_ & _ & H1), H2 as (H2 & H2' & _).
  specialize (H1 ltac:(lia)).
  pose proof (digits2_pos_bounds m1) as B1.
  pose proof (digits2_pos_bounds m2) as B2.
  rewrite H1 in B1.
  assert (P1 : (2 ^ Z.pos (digits2_pos m2) <= 2 ^ prec)%Z)
    by (apply Z.pow_le_mono_r; lia).
  assert (P2 : (2 ^ 1 <= 2 ^ (e1 - e2))%Z) by (apply Z.pow_le_mono_r; lia).
  assert (P3 : (2 ^ prec = 2 * 2 ^ (prec - 1))%Z).
  { replace prec with (Z.succ (prec - 1)) at 1 by lia.
    apply Z.pow_succ_r. lia. }
  change (2 ^ 1)%Z with 2%Z in P2. nia.
Qed.

Lemma SFsub_nonneg x y :
  SpecFloat.valid_binary prec emax x = true ->
  SpecFloat.valid_binary prec emax y = true ->
  SFfinite x = true -> SFfinite y = true ->
  SFleb y x = true -> SFnonneg (SFsub prec emax x y).
Proof.
  intros Vx Vy Fx Fy Hle.
  destruct x as [sx|sx| |sx mx ex], y as [sy|sy| |sy my ey]; try discriminate.
  - destruct sx, sy; reflexivity.
  - destruct sy; [reflexivity | discriminate].
  - destruct sx; [discriminate | reflexivity].
  - simpl in Vx, Vy. unfold bounded in Vx, Vy.
    apply andb_prop in Vx as [Cx _], Vy as [Cy _].
    unfold SFsub. apply binary_normalize_nonneg.
    rewrite !shl_align_fst by lia.
    unfold SFleb, SFcompare in Hle.
    assert (Px : (0 < Z.pos mx * 2 ^ (ex - Z.min ex ey))%Z)
      by (apply Z.mul_pos_pos; [lia | apply Z.pow_pos_nonneg; lia]).
    assert (Py : (0 < Z.pos my * 2 ^ (ey - Z.min ex ey))%Z)
      by (apply Z.mul_pos_pos; [lia | apply Z.pow_pos_nonneg; lia]).
    destruct sx, sy; simpl cond_Zopp; try discriminate; try lia.
    + (* both negative: the larger magnitude is the smaller number *)
      destruct (Z.compare_spec ey ex) as [E|E|E]; try discriminate.
      * subst ey. rewrite Z.min_id, Z.sub_diag, Z.pow_0_r.
        destruct (Pos.compare_cont Eq my mx) eqn:C; try discriminate;
          fold (Pos.compare my mx) in C.
        -- apply Pos.compare_eq in C. lia.
        -- apply (proj1 (Pos.compare_gt_iff _ _)) in C. lia.
      * rewrite Z.min_l by lia. rewrite Z.sub_diag.
        pose proof (canonical_exponent_lt my ey mx ex Cy Cx E). rewrite Z.pow_0_r. lia.
    + (* both positive *)
      destruct (Z.compare_spec ey ex) as [E|E|E]; try discriminate.
      * subst ey. rewrite Z.min_id, Z.sub_diag, Z.pow_0_r.
        destruct (Pos.compare_cont Eq my mx) eqn:C; try discriminate;
          fold (Pos.compare my mx) in C.
        -- apply Pos.compare_eq in C. lia.
        -- change (my < mx)%positive in C. lia.
      * rewrite Z.min_r by lia. rewrite Z.sub_diag.
        pose proof (canonical_exponent_lt mx ex my ey Cx Cy E). rewrite Z.pow_0_r. lia.
Qed.
End SpecFloatFacts.

Lemma finite_Prim2SF (x : float) : is_finite x = true -> SFfinite (Prim2SF x) = true.
Proof.
  unfold is_finite, is_nan, is_infinity.
  rewrite !FloatAxioms.eqb_spec, abs_spec.
  destruct (Prim2SF x) as [s|s| |s m e]; simpl; try reflexivity.
  - destruct s; vm_compute; discriminate.
  - vm_compute. discriminate.
Qed.

Lemma float_sub_nonneg (s e : float) :
  is_finite s = true -> is_finite e = true ->
  (s <=? e)%float = true -> (0 <=? e - s)%float = true.
Proof.
  intros Fs Fe Hle. rewrite FloatAxioms.leb_spec in *. rewrite sub_spec.
  apply SFsub_nonneg; auto using Prim2SF_valid, finite_Prim2SF.
Qed.

Lemma is_nan_eq (x : float) : is_nan x = true -> x = nan.
Proof.
  unfold is_nan. rewrite FloatAxioms.eqb_spec. intros H.
  apply Prim2SF_inj. change (Prim2SF nan) with S754_nan.
  destruct (Prim2SF x) as [s|s| |s m e]; try reflexivity; exfalso.
  - discriminate.
  - destruct s; discriminate.
  - unfold SFeqb, SFcompare in H. rewrite Z.compare_refl in H.
    fold (Pos.compare m m) in H. rewrite Pos.compare_refl in H.
    destruct s; discriminate.
Qed.

Lemma is_neg_zero_eq (x : float) : is_neg_zero x = true -> x = neg_zero.
Proof.
  unfold is_neg_zero. rewrite classify_spec. intros H.
  apply Prim2SF_inj. change (Prim2SF neg_zero) with (S754_zero true).
  unfold SF64classify, SFclassify in H.
  destruct (Prim2SF x) as [[]|[]| |[] m e]; try discriminate; try reflexivity;
    destruct (Z.eqb _ _); discriminate.
Qed.

Lemma sub_nan_l (y : float) : (nan - y)%float = nan.
Proof.
  apply Prim2SF_inj. rewrite sub_spec. change (Prim2SF nan) with S754_nan. reflexivity.
Qed.

Lemma div_nan_l (y : float) : (nan / y)%float = nan.
Proof.
  apply Prim2SF_inj. rewrite div_spec. change (Prim2SF nan) with S754_nan. reflexivity.
Qed.

Lemma ltb_nan_l (y : float) : (nan <? y)%float = false.
Proof. rewrite FloatAxioms.ltb_spec. change (Prim2SF nan) with S754_nan. reflexivity. Qed.

Lemma ltb_nan_r (x : float) : (x <? nan)%float = false.
Proof.
  rewrite FloatAxioms.ltb_spec. change (Prim2SF nan) with S754_nan.
  destruct (Prim2SF x); reflexivity.
Qed.

(** Next to -0, a number that is neither below nor above it is a zero. *)
Lemma neg_zero_tie (y : float) :
  is_nan y = false -> (neg_zero <? y)%float = false -> (y <? neg_zero)%float = false ->
  y = PrimFloat.zero \/ y = neg_zero.
Proof.
  unfold is_nan. rewrite FloatAxioms.eqb_spec, !FloatAxioms.ltb_spec.
  change (Prim2SF neg_zero) with (S754_zero true).
  intros N L1 L2.
  destruct (Prim2SF y) as [s|s| |s m e] eqn:E.
  - destruct s; [right | left]; apply Prim2SF_inj; rewrite E; reflexivity.
  - destruct s; discriminate.
  - discriminate.
  - destruct s; discriminate.
Qed.

(** The divisor the code picks gives the quotient of [Math.min]. *)
Lemma percentage_min (a m : float) :
  (if a <? m then abs (a - m) / a * 100 else abs (a - m) / m * 100)%float
  = (abs (a - m) / Math_min a m * 100)%float.
Proof.
  unfold Math_min.
  destruct (is_nan a) eqn:Na.
  { apply is_nan_eq in Na. subst a. simpl orb.
    rewrite ltb_nan_l, sub_nan_l. change (abs nan) with nan.
    rewrite div_nan_l. reflexivity. }
  destruct (is_nan m) eqn:Nm.
  { apply is_nan_eq in Nm. subst m. simpl orb. rewrite ltb_nan_r. reflexivity. }
  simpl orb.
  destruct (a <? m)%float eqn:L1; [reflexivity|].
  destruct (m <? a)%float eqn:L2; [reflexivity|].
  destruct (is_neg_zero a) eqn:Z; [|reflexivity].
  apply is_neg_zero_eq in Z. subst a.
  destruct (neg_zero_tie m Nm L1 L2) as [-> | ->]; reflexivity.
Qed.

(** * The JSON text of a value parses back *)

(** ** Strings *)

Lemma append_cons (c : ascii) (s t : string) : String c s +:+ t = String c (s +:+ t).
Proof. reflexivity. Qed.

Lemma append_nil_l (t : string) : "" +:+ t = t.
Proof. reflexivity. Qed.

Lemma append_assoc (s t u : string) : (s +:+ t) +:+ u = s +:+ (t +:+ u).
Proof.
  induction s as [|c s IH]; [reflexivity|]. rewrite !append_cons. now rewrite IH.
Qed.

Lemma length_append (s t : string) :
  String.length (s +:+ t) = (String.length s + String.length t)%nat.
Proof.
  induction s as [|c s IH]; [reflexivity|]. rewrite append_cons. simpl. now rewrite IH.
Qed.

(** ** Decimal numerals *)

Lemma string_of_uint_digits (d : Decimal.uint) :
  all_digits (NilEmpty.string_of_uint d).
Proof.
  unfold all_digits. induction d; simpl; constructor; auto.
Qed.

Lemma take_digits_append (ds rest : string) :
  all_digits ds -> number_end rest = true ->
  take_digits (ds +:+ rest) = (ds, rest).
Proof.
  unfold all_digits. intros Hd Hr.
  induction ds as [|c ds IH]; simpl in Hd.
  - rewrite append_nil_l. destruct rest as [|c r]; [reflexivity|]. simpl in Hr.
    apply andb_prop in Hr as [Hr _]. apply negb_true_iff in Hr.
    simpl. now rewrite Hr.
  - inversion Hd as [|? ? Hc Hds]; subst.
    rewrite append_cons. simpl. rewrite Hc, (IH Hds). reflexivity.
Qed.

(** The numeral of a positive number is not empty and does not open with 0. *)
Lemma to_uint_head (p : positive) :
  exists c r, NilEmpty.string_of_uint (Pos.to_uint p) = String c r
              /\ (r = "" \/ Ascii.eqb c "0" = false).
Proof.
  pose proof (Unsigned.to_uint_nonnil p) as Hnil.
  pose proof (DecimalPos.Unsigned.to_of (Pos.to_uint p)) as Hnorm.
  rewrite DecimalPos.Unsigned.of_to in Hnorm. simpl in Hnorm.
  destruct (Pos.to_uint p) as [|d|d|d|d|d|d|d|d|d|d] eqn:E;
    try congruence; simpl; eexists _, _; (split; [reflexivity|]);
    try (right; reflexivity).
  left. rewrite unorm_D0 in Hnorm.
  unfold Decimal.unorm in Hnorm.
  destruct (Decimal.nzhead d) eqn:N; try (inversion Hnorm; subst; reflexivity);
    exfalso; rewrite <- N in Hnorm; symmetry in Hnorm;
    now apply nzhead_nonzero in Hnorm.
Qed.

Lemma Number_toString_nonneg (n : Z) :
  (0 <= n)%Z ->
  exists d, Number_toString n = NilEmpty.string_of_uint d /\ Z.of_uint d = n
            /\ exists c r, NilEmpty.string_of_uint d = String c r
                           /\ (r = "" \/ Ascii.eqb c "0" = false).
Proof.
  intros H. unfold Number_toString. destruct n as [|p|p]; try lia; simpl.
  - exists (Decimal.D0 Decimal.Nil). repeat split; eauto.
  - exists (Pos.to_uint p). split; [reflexivity|]. split.
    + unfold Z.of_uint. now rewrite DecimalPos.Unsigned.of_to.
    + apply to_uint_head.
Qed.

Lemma parse_digits_toString (n : Z) (rest : string) :
  (0 <= n)%Z -> number_end rest = true ->
  parse_digits (Number_toString n +:+ rest) = inr (n, rest).
Proof.
  intros Hn Hr.
  destruct (Number_toString_nonneg n Hn) as (d & -> & Hd & c & r & E & Hz).
  unfold parse_digits.
  rewrite take_digits_append by auto using string_of_uint_digits. simpl.
  rewrite NilEmpty.usu, Hd.
  assert (Hf : starts_fraction rest = false).
  { destruct rest; [reflexivity|]. simpl in Hr.
    apply andb_prop in Hr as [_ Hr]. now apply negb_true_iff in Hr. }
  rewrite Hf, E. simpl.
  destruct Hz as [-> | Hz]; [reflexivity|].
  destruct r; [reflexivity | now rewrite Hz].
Qed.

(** ** Tokens *)

Lemma parse_value_digit (f : nat) (c : ascii) (s : string) :
  is_digit c = true ->
  parse_value (S f) (String c s)
  = match parse_digits (String c s) with
    | inr (n, rest) => inr (JNum n, rest)
    | inl e => inl e
    end.
Proof.
  intros H.
  destruct c as [[] [] [] [] [] [] [] []]; try (vm_compute in H; discriminate H);
    reflexivity.
Qed.

Lemma parse_value_number (f : nat) (n : Z) (rest : string) :
  number_end rest = true ->
  parse_value (S f) (Number_toString n +:+ rest) = inr (JNum n, rest).
Proof.
  intros Hr. destruct (Z.neg_nonneg_cases n) as [Hn | Hn].
  - destruct n as [|p|p]; try lia.
    pose proof (parse_digits_toString (Z.pos p) rest ltac:(lia) Hr) as Hp.
    change (Number_toString (Z.neg p))
      with (String "-" (Number_toString (Z.pos p))).
    rewrite append_cons. simpl. rewrite Hp. reflexivity.
  - pose proof (parse_digits_toString n rest Hn Hr) as Hp.
    destruct (Number_toString_nonneg n Hn) as (d & E & _ & c & r & E' & _).
    pose proof (string_of_uint_digits d) as Hd. rewrite E' in Hd.
    inversion Hd as [|? ? Hc _]; subst.
    rewrite E, E', append_cons in *.
    rewrite (parse_value_digit f c _ Hc), Hp. reflexivity.
Qed.

Lemma parse_escape_char (c : ascii) (r : string) :
  parse_string_body (escape_char c +:+ r) = cons_char c (parse_string_body r).
Proof. destruct c as [[] [] [] [] [] [] [] []]; reflexivity. Qed.

Lemma parse_string_escape (s rest : string) :
  parse_string_body (escape s +:+ String dquote rest) = inr (s, rest).
Proof.
  induction s as [|c s IH]; [reflexivity|].
  simpl escape. rewrite append_assoc, parse_escape_char, IH. reflexivity.
Qed.

Lemma parse_value_string (f : nat) (s rest : string) :
  parse_value (S f) (quote s +:+ rest) = inr (JStr s, rest).
Proof.
  unfold quote. rewrite append_cons, append_assoc, append_cons, append_nil_l.
  simpl. rewrite parse_string_escape. reflexivity.
Qed.

(** ** Values *)

(** The text of a value opens with a character of [value_start]. *)
Lemma JSON_stringify_head (v : json) :
  exists c r, JSON_stringify v = String c r /\ value_start c = true.
Proof.
  destruct v as [|[]|n|s|items|props]; simpl;
    try (eexists _, _; split; [reflexivity | reflexivity]).
  destruct (Z.neg_nonneg_cases n) as [Hn | Hn].
  - destruct n as [|p|p]; try lia.
    exists "-"%char, (Number_toString (Z.pos p)). split; reflexivity.
  - destruct (Number_toString_nonneg n Hn) as (d & E & _ & c & r & E' & _).
    pose proof (string_of_uint_digits d) as Hd. rewrite E' in Hd.
    inversion Hd as [|? ? Hc _]; subst.
    exists c, r. split; [congruence|].
    destruct c as [[] [] [] [] [] [] [] []]; try (vm_compute in Hc; discriminate Hc);
      reflexivity.
Qed.

Lemma parse_value_array (f : nat) (s : string) (c : ascii) (r : string) :
  s = String c r -> value_start c = true ->
  parse_value (S f) (String "[" s)
  = match parse_elements f s with
    | inr (items, rest) => inr (JArr items, rest)
    | inl e => inl e
    end.
Proof.
  intros -> H. unfold value_start in H. apply andb_prop in H as [H _].
  apply andb_prop in H as [Hw H]. apply negb_true_iff in H, Hw.
  simpl. rewrite Hw, H. reflexivity.
Qed.

Lemma parse_value_object (f : nat) (s : string) (c : ascii) (r : string) :
  s = String c r -> value_start c = true ->
  parse_value (S f) (String "{" s)
  = match parse_members f s with
    | inr (members, rest) =>
        match make_object members with
        | inr o => inr (o, rest)
        | inl e => inl e
        end
    | inl e => inl e
    end.
Proof.
  intros -> H. unfold value_start in H. apply andb_prop in H as [Hw H].
  apply andb_prop in Hw as [Hw _]. apply negb_true_iff in H, Hw.
  simpl. rewrite Hw, H. reflexivity.
Qed.

(** Distinct keys are set one after the other, in their order. *)
Lemma set_prop_fresh (k : string) (v : json) (acc : list (string * json)) :
  List.existsb (fun q => String.eqb (fst q) k) acc = false ->
  set_prop k v acc = (acc ++ [(k, v)])%list.
Proof.
  induction acc as [|p acc IH]; simpl; [reflexivity|].
  intros H. apply orb_false_elim in H as [H1 H2].
  rewrite H1. f_equal. exact (IH H2).
Qed.

Lemma fold_set_prop (members acc : list (string * json)) :
  distinct_keys (acc ++ members) = true ->
  List.fold_left (fun o p => set_prop (fst p) (snd p) o) members acc
  = (acc ++ members)%list.
Proof.
  revert acc. induction members as [|[k v] ms IH]; intros acc H; simpl.
  - now rewrite app_nil_r.
  - rewrite set_prop_fresh.
    + rewrite IH; rewrite <- app_assoc; [reflexivity | exact H].
    + clear IH. induction acc as [|q acc IHa]; [reflexivity|].
      simpl in H. apply andb_prop in H as [H1 H2].
      apply negb_true_iff in H1. rewrite existsb_app in H1.
      apply orb_false_elim in H1 as [_ H1]. simpl in H1.
      apply orb_false_elim in H1 as [H1 _].
      simpl. rewrite String.eqb_sym, H1. simpl. exact (IHa H2).
Qed.

Lemma make_object_plain (props : list (string * json)) :
  plain (JObj props) = true -> make_object props = inr (JObj props).
Proof.
  simpl. intros H. apply andb_prop in H as [H1 H2].
  unfold make_object.
  assert (E : List.existsb (fun p => index_key (fst p)) props = false).
  { clear H2. induction props as [|p ps IH]; [reflexivity|].
    simpl in *. apply andb_prop in H1 as [Hp Hps].
    apply andb_prop in Hp as [Hp _]. apply negb_true_iff in Hp.
    rewrite Hp. exact (IH Hps). }
  rewrite E. f_equal. f_equal. apply (fold_set_prop props []). exact H2.
Qed.

Lemma weight_pos (v : json) : (1 <= weight v)%nat.
Proof. destruct v; simpl; lia. Qed.

Lemma JSON_stringify_array (items : list json) :
  JSON_stringify (JArr items) = String "[" (elements_text items +:+ "]").
Proof. reflexivity. Qed.

Lemma JSON_stringify_object (props : list (string * json)) :
  JSON_stringify (JObj props) = String "{" (members_text props +:+ "}").
Proof. reflexivity. Qed.

Lemma elements_text_cons (x : json) (items : list json) (t : string) :
  elements_text (x :: items) +:+ t
  = JSON_stringify x +:+ match items with
                         | [] => t
                         | _ :: _ => String "," (elements_text items +:+ t)
                         end.
Proof.
  destruct items as [|y items]; [reflexivity|].
  change (elements_text (x :: y :: items))
    with (JSON_stringify x +:+ String "," (elements_text (y :: items))).
  now rewrite append_assoc, append_cons.
Qed.

Lemma members_text_cons (p : string * json) (props : list (string * json)) (t : string) :
  members_text (p :: props) +:+ t
  = String dquote
      (escape (fst p) +:+ String dquote (String ":"
         (JSON_stringify (snd p) +:+ match props with
                                     | [] => t
                                     | _ :: _ => String "," (members_text props +:+ t)
                                     end))).
Proof.
  assert (E : forall u, (quote (fst p) +:+ ":" +:+ JSON_stringify (snd p)) +:+ u
              = String dquote (escape (fst p) +:+ String dquote (String ":"
                  (JSON_stringify (snd p) +:+ u)))).
  { intros u. unfold quote.
    rewrite !append_cons, !append_assoc, !append_cons, !append_nil_l.
    reflexivity. }
  destruct props as [|q props]; [apply E|].
  change (members_text (p :: q :: props))
    with ((quote (fst p) +:+ ":" +:+ JSON_stringify (snd p))
            +:+ String "," (members_text (q :: props))).
  now rewrite append_assoc, E, append_cons.
Qed.

Arguments elements_text : simpl never.
Arguments members_text : simpl never.

(** With fuel for every parser call, the text of a plain value, followed
    by anything that ends a number, parses to the value and leaves what
    follows; likewise for the elements of an array and the members of an
    object. *)
Lemma parse_stringify_fuel (fuel : nat) :
  (forall v rest,
      (weight v <= fuel)%nat -> plain v = true -> number_end rest = true ->
      parse_value fuel (JSON_stringify v +:+ rest) = inr (v, rest))
  /\ (forall x items rest,
      (list_sum (List.map (fun y => S (weight y)) (x :: items)) <= fuel)%nat ->
      List.forallb plain (x :: items) = true ->
      parse_elements fuel (elements_text (x :: items) +:+ String "]" rest)
      = inr (x :: items, rest))
  /\ (forall p props rest,
      (list_sum (List.map (fun q => S (weight (snd q))) (p :: props)) <= fuel)%nat ->
      List.forallb (fun q => negb (index_key (fst q)) && plain (snd q)) (p :: props) = true ->
      parse_members fuel (members_text (p :: props) +:+ String "}" rest)
      = inr (p :: props, rest)).
Proof.
  induction fuel as [|f (IHv & IHe & IHm)].
  { split; [|split].
    - intros v rest H. pose proof (weight_pos v). lia.
    - intros x items rest H. simpl in H. lia.
    - intros p props rest H. simpl in H. lia. }
  split; [|split].
  - intros v rest Hw Hp Hr.
    destruct v as [|[]|n|s|items|props]; try reflexivity.
    + now apply parse_value_number.
    + apply parse_value_string.
    + destruct items as [|x items]; [reflexivity|].
      rewrite JSON_stringify_array, append_cons, append_assoc.
      change ("]" +:+ rest) with (String "]" rest).
      destruct (JSON_stringify_head x) as (c & r & E & Hc).
      erewrite parse_value_array;
        [| rewrite elements_text_cons, E, append_cons; reflexivity | exact Hc].
      rewrite IHe; [reflexivity | simpl in *; lia | exact Hp].
    + destruct props as [|p props]; [reflexivity|].
      rewrite JSON_stringify_object, append_cons, append_assoc.
      change ("}" +:+ rest) with (String "}" rest).
      erewrite parse_value_object;
        [| rewrite members_text_cons; reflexivity | reflexivity].
      simpl in Hp. apply andb_prop in Hp as [Hp1 Hp2].
      rewrite IHm; [| simpl in *; lia | exact Hp1].
      rewrite make_object_plain; [reflexivity|].
      simpl. now rewrite Hp1, Hp2.
  - intros x items rest Hw Hp.
    simpl in Hw, Hp. apply andb_prop in Hp as [Hx Hp].
    rewrite elements_text_cons. simpl parse_elements.
    rewrite IHv; [| lia | exact Hx | destruct items; reflexivity].
    destruct items as [|y items]; [reflexivity|].
    simpl skip_ws. cbn iota. simpl.
    rewrite IHe; [reflexivity | simpl in *; lia | exact Hp].
  - intros [k v] props rest Hw Hp.
    simpl in Hw, Hp. apply andb_prop in Hp as [Hx Hp].
    apply andb_prop in Hx as [_ Hx].
    rewrite members_text_cons. simpl parse_members.
    rewrite parse_string_escape. simpl.
    rewrite IHv; [| lia | exact Hx | destruct props; reflexivity].
    destruct props as [|q props]; [reflexivity|].
    simpl.
    rewrite IHm; [reflexivity | simpl in *; lia | exact Hp].
Qed.

(** ** Whole texts *)

(** Induction on a JSON value, with the property known for the elements
    of an array and the values of an object. *)
Section json_induction.

Variable P : json -> Prop.
Hypothesis Hnull : P JNull.
Hypothesis Hbool : forall b, P (JBool b).
Hypothesis Hnum : forall n, P (JNum n).
Hypothesis Hstr : forall s, P (JStr s).
Hypothesis Harr : forall items, Forall P items -> P (JArr items).
Hypothesis Hobj : forall props, Forall (fun p => P (snd p)) props -> P (JObj props).

Fixpoint json_nested_ind (v : json) : P v :=
  match v with
  | JNull => Hnull
  | JBool b => Hbool b
  | JNum n => Hnum n
  | JStr s => Hstr s
  | JArr items =>
      Harr items
        ((fix go (l : list json) : Forall P l :=
            match l with
            | [] => @List.Forall_nil _ P
            | x :: l' => @List.Forall_cons _ P x l' (json_nested_ind x) (go l')
            end) items)
  | JObj props =>
      Hobj props
        ((fix go (l : list (string * json)) : Forall (fun p => P (snd p)) l :=
            match l with
            | [] => @List.Forall_nil _ _
            | p :: l' => @List.Forall_cons _ _ p l' (json_nested_ind (snd p)) (go l')
            end) props)
  end.

End json_induction.

(** Every parser call of a value is paid for by a character of its text. *)
Lemma weight_le_length (v : json) :
  (weight v <= String.length (JSON_stringify v))%nat.
Proof.
  induction v as [| [] | n | s | items IH | props IH] using json_nested_ind;
    try (simpl; lia).
  - destruct (JSON_stringify_head (JNum n)) as (c & r & -> & _). simpl. lia.
  - rewrite JSON_stringify_array. simpl String.length. rewrite length_append.
    simpl weight. simpl String.length.
    enough (list_sum (List.map (fun x => S (weight x)) items)
            <= String.length (elements_text items) + 1)%nat by lia.
    induction IH as [|x l Hx _ IHl]; [simpl; lia|].
    destruct l as [|y l];
      [change (elements_text [x]) with (JSON_stringify x); simpl in *; lia|].
    change (elements_text (x :: y :: l))
      with (JSON_stringify x +:+ String "," (elements_text (y :: l))).
    rewrite length_append. simpl in *. lia.
  - rewrite JSON_stringify_object. simpl String.length. rewrite length_append.
    simpl weight. simpl String.length.
    enough (list_sum (List.map (fun p => S (weight (snd p))) props)
            <= String.length (members_text props) + 1)%nat by lia.
    induction IH as [|p l Hp _ IHl]; [simpl; lia|].
    assert (Hm : (S (weight (snd p))
                  <= String.length (quote (fst p) +:+ ":" +:+ JSON_stringify (snd p)))%nat).
    { unfold quote. rewrite append_cons. simpl String.length.
      rewrite !length_append. simpl. lia. }
    destruct l as [|q l];
      [change (members_text [p]) with (quote (fst p) +:+ ":" +:+ JSON_stringify (snd p));
       simpl in *; lia|].
    change (members_text (p :: q :: l))
      with ((quote (fst p) +:+ ":" +:+ JSON_stringify (snd p))
              +:+ String "," (members_text (q :: l))).
    rewrite length_append. simpl in *. lia.
Qed.

Lemma append_nil_r (s : string) : s +:+ "" = s.
Proof.
  induction s as [|c s IH]; [reflexivity|]. rewrite append_cons. now rewrite IH.
Qed.

(** [JSON.parse(JSON.stringify(v))] is [v] for every plain value. *)
Lemma JSON_parse_stringify (v : json) :
  plain v = true -> JSON_parse (Str (JSON_stringify v)) = inr v.
Proof.
  intros Hp. unfold JSON_parse, JSON_parse_text, ToString.
  destruct (parse_stringify_fuel (2 * String.length (JSON_stringify v) + 2))
    as (Hv & _ & _).
  rewrite <- (append_nil_r (JSON_stringify v)) at 2.
  rewrite Hv; [reflexivity | | exact Hp | reflexivity].
  pose proof (weight_le_length v). lia.
Qed.

(** ** The payload *)

Lemma data_plain (size : nat) : plain (data size) = true.
Proof.
  unfold data, Array_from. simpl.
  induction (seq 0 size) as [|i l IH]; [reflexivity|]. simpl. exact IH.
Qed.

Lemma data_lookup (size i : nat) :
  match data size with
  | JArr items =>
      items !! i
      = if (i <? size)%nat
        then Some (JObj [("id", JNum (Z.of_nat i));
                         ("value", JStr ("Data " +:+ Number_toString (Z.of_nat i)))])
        else None
  | _ => False
  end.
Proof.
  unfold data, Array_from. rewrite list_lookup_fmap.
  destruct (Nat.ltb_spec i size) as [H | H].
  - rewrite lookup_seq_lt by lia. reflexivity.
  - rewrite lookup_seq_ge by lia. reflexivity.
Qed.

(** ** The recursion bound is never reached *)

Lemma skip_ws_length (s : string) : (String.length (skip_ws s) <= String.length s)%nat.
Proof.
  induction s as [|c s IH]; simpl; [lia|]. destruct (is_ws c); simpl; lia.
Qed.

Lemma take_digits_length (s : string) :
  (String.length (take_digits s).1 + String.length (take_digits s).2
   = String.length s)%nat.
Proof.
  induction s as [|c s IH]; simpl; [reflexivity|].
  destruct (is_digit c); simpl; lia.
Qed.

Lemma parse_digits_shorter (s : string) (n : Z) (rest : string) :
  parse_digits s = inr (n, rest) -> (String.length rest < String.length s)%nat.
Proof.
  unfold parse_digits. pose proof (take_digits_length s) as H.
  destruct (String.eqb (take_digits s).1 "") eqn:E; simpl; [discriminate|].
  destruct (leading_zero _); [discriminate|].
  destruct (starts_fraction _); [discriminate|].
  destruct (NilEmpty.uint_of_string _); [|discriminate].
  intros [= _ <-]. apply String.eqb_neq in E.
  destruct (take_digits s).1; [congruence|]. simpl in H. lia.
Qed.

Lemma parse_digits_fuel (s : string) : parse_digits s <> inl OutOfFuel.
Proof.
  unfold parse_digits.
  destruct (_ || _); [discriminate|].
  destruct (starts_fraction _); [discriminate|].
  destruct (NilEmpty.uint_of_string _); discriminate.
Qed.

Lemma parse_number_shorter (s : string) (n : Z) (rest : string) :
  parse_number s = inr (n, rest) -> (String.length rest < String.length s)%nat.
Proof.
  unfold parse_number. destruct s as [|c r]; [discriminate|].
  destruct (Ascii.eqb c "-").
  - destruct (parse_digits r) as [e|[m rest']] eqn:E; [discriminate|].
    intros [= _ <-]. apply parse_digits_shorter in E. simpl. lia.
  - apply parse_digits_shorter.
Qed.

Lemma parse_number_fuel (s : string) : parse_number s <> inl OutOfFuel.
Proof.
  unfold parse_number. destruct s as [|c r]; [discriminate|].
  destruct (Ascii.eqb c "-"); [|apply parse_digits_fuel].
  pose proof (parse_digits_fuel r).
  destruct (parse_digits r) as [[]|[m rest']]; congruence.
Qed.

Lemma cons_char_inr (c : ascii) (r : Error + string * string) (k rest : string) :
  cons_char c r = inr (k, rest) -> exists k', r = inr (k', rest).
Proof. destruct r as [e|[k' rest']]; simpl; [discriminate|]. intros [= _ <-]. eauto. Qed.

Lemma cons_char_fuel (c : ascii) (r : Error + string * string) :
  r <> inl OutOfFuel -> cons_char c r <> inl OutOfFuel.
Proof. destruct r as [e|[k' rest']]; simpl; congruence. Qed.

Lemma parse_string_body_bound (n : nat) (s : string) :
  (String.length s <= n)%nat ->
  parse_string_body s <> inl OutOfFuel
  /\ forall k rest, parse_string_body s = inr (k, rest) ->
                    (String.length rest < String.length s)%nat.
Proof.
  revert s. induction n as [|n IH]; intros s Hn.
  { destruct s; [|simpl in Hn; lia]. split; [discriminate | discriminate]. }
  destruct s as [|c r]; [split; discriminate|].
  simpl in Hn. simpl parse_string_body.
  destruct (Ascii.eqb c dquote).
  { split; [discriminate|]. intros k rest [= _ <-]. simpl. lia. }
  destruct (Ascii.eqb c backslash).
  - destruct r as [|e r1]; [split; discriminate|]. simpl in Hn.
    destruct (unescape e).
    + destruct (IH r1 ltac:(lia)) as [F S1]. split; [now apply cons_char_fuel|].
      intros k rest H. apply cons_char_inr in H as [k' H]. apply S1 in H. simpl. lia.
    + destruct (Ascii.eqb e "u"); [|split; discriminate].
      destruct r1 as [|h1 [|h2 [|h3 [|h4 r2]]]]; try (split; discriminate).
      simpl in Hn.
      destruct (hex4 h1 h2 h3 h4); [|split; discriminate].
      destruct (_ <? 256)%nat; [|split; discriminate].
      destruct (IH r2 ltac:(lia)) as [F S1]. split; [now apply cons_char_fuel|].
      intros k rest H. apply cons_char_inr in H as [k' H]. apply S1 in H. simpl. lia.
  - destruct (_ <? 32)%nat; [split; discriminate|].
    destruct (IH r ltac:(lia)) as [F S1]. split; [now apply cons_char_fuel|].
    intros k rest H. apply cons_char_inr in H as [k' H]. apply S1 in H. simpl. lia.
Qed.

Lemma parse_string_body_shorter (s k rest : string) :
  parse_string_body s = inr (k, rest) -> (String.length rest < String.length s)%nat.
Proof. apply (parse_string_body_bound (String.length s) s (le_n _)). Qed.

Lemma parse_string_body_fuel (s : string) : parse_string_body s <> inl OutOfFuel.
Proof. apply (parse_string_body_bound (String.length s) s (le_n _)). Qed.

Lemma strip_prefix_length (kw s rest : string) :
  strip_prefix kw s = Some rest ->
  (String.length rest + String.length kw = String.length s)%nat.
Proof.
  revert s. induction kw as [|a kw IH]; intros s; simpl.
  - intros [= ->]. lia.
  - destruct s as [|b s]; [discriminate|]. destruct (Ascii.eqb a b); [|discriminate].
    intros H. apply IH in H. simpl. lia.
Qed.

Lemma parse_keyword_shorter (kw : string) (v : json) (s : string) (v' : json) (rest : string) :
  kw <> "" -> parse_keyword kw v s = inr (v', rest) ->
  (String.length rest < String.length s)%nat.
Proof.
  unfold parse_keyword. intros Hk.
  destruct (strip_prefix kw s) eqn:E; [|discriminate].
  intros [= _ <-]. apply strip_prefix_length in E.
  destruct kw; [congruence|]. simpl in E. lia.
Qed.

Lemma parse_keyword_fuel (kw : string) (v : json) (s : string) :
  parse_keyword kw v s <> inl OutOfFuel.
Proof. unfold parse_keyword. destruct (strip_prefix kw s); discriminate. Qed.

Lemma make_object_fuel (members : list (string * json)) :
  make_object members <> inl OutOfFuel.
Proof. unfold make_object. destruct (List.existsb _ _); discriminate. Qed.

#[local] Arguments parse_keyword : simpl never.
#[local] Arguments parse_number : simpl never.
#[local] Arguments parse_string_body : simpl never.
#[local] Arguments make_object : simpl never.

(** Every successful parser call consumes a character. *)
Lemma parse_shorter (fuel : nat) :
  (forall s v rest,
      parse_value fuel s = inr (v, rest) -> (String.length rest < String.length s)%nat)
  /\ (forall s vs rest,
      parse_elements fuel s = inr (vs, rest) -> (String.length rest < String.length s)%nat)
  /\ (forall s ms rest,
      parse_members fuel s = inr (ms, rest) -> (String.length rest < String.length s)%nat).
Proof.
  induction fuel as [|f (IHv & IHe & IHm)]; [repeat split; discriminate|].
  split; [|split]; intros s x rest; simpl.
  - pose proof (skip_ws_length s) as Hs.
    destruct (skip_ws s) as [|c r]; [discriminate|]. simpl in Hs.
    destruct (Ascii.eqb c "[").
    { pose proof (skip_ws_length r) as Hr.
      destruct (skip_ws r) as [|c' r']; [discriminate|]. simpl in Hr.
      destruct (Ascii.eqb c' "]"); [intros [= _ <-]; lia|].
      destruct (parse_elements f r) as [e|[items rest']] eqn:E; [discriminate|].
      intros [= _ <-]. apply IHe in E. lia. }
    destruct (Ascii.eqb c "{").
    { pose proof (skip_ws_length r) as Hr.
      destruct (skip_ws r) as [|c' r']; [discriminate|]. simpl in Hr.
      destruct (Ascii.eqb c' "}"); [intros [= _ <-]; lia|].
      destruct (parse_members f r) as [e|[members rest']] eqn:E; [discriminate|].
      destruct (make_object members); [discriminate|].
      intros [= _ <-]. apply IHm in E. lia. }
    destruct (Ascii.eqb c dquote).
    { destruct (parse_string_body r) as [e|[str rest']] eqn:E; [discriminate|].
      intros [= _ <-]. apply parse_string_body_shorter in E. lia. }
    destruct (Ascii.eqb c "t").
    { intros E. apply parse_keyword_shorter in E; [simpl in E; lia | discriminate]. }
    destruct (Ascii.eqb c "f").
    { intros E. apply parse_keyword_shorter in E; [simpl in E; lia | discriminate]. }
    destruct (Ascii.eqb c "n").
    { intros E. apply parse_keyword_shorter in E; [simpl in E; lia | discriminate]. }
    destruct (Ascii.eqb c "-" || is_digit c); [|discriminate].
    destruct (parse_number (String c r)) as [e|[n rest']] eqn:E; [discriminate|].
    intros [= _ <-]. apply parse_number_shorter in E. simpl in E. lia.
  - destruct (parse_value f s) as [e|[v r]] eqn:E; [discriminate|]. apply IHv in E.
    pose proof (skip_ws_length r) as Hr.
    destruct (skip_ws r) as [|c r']; [discriminate|]. simpl in Hr.
    destruct (Ascii.eqb c ",").
    { destruct (parse_elements f r') as [e|[vs' rest']] eqn:E2; [discriminate|].
      intros [= _ <-]. apply IHe in E2. lia. }
    destruct (Ascii.eqb c "]"); [|discriminate]. intros [= _ <-]. lia.
  - pose proof (skip_ws_length s) as Hs.
    destruct (skip_ws s) as [|q r]; [discriminate|]. simpl in Hs.
    destruct (Ascii.eqb q dquote); [|discriminate].
    destruct (parse_string_body r) as [e|[k r1]] eqn:E1; [discriminate|].
    apply parse_string_body_shorter in E1.
    pose proof (skip_ws_length r1) as H1.
    destruct (skip_ws r1) as [|c r2]; [discriminate|]. simpl in H1.
    destruct (Ascii.eqb c ":"); [|discriminate].
    destruct (parse_value f r2) as [e|[v r3]] eqn:E3; [discriminate|]. apply IHv in E3.
    pose proof (skip_ws_length r3) as H3.
    destruct (skip_ws r3) as [|c' r4]; [discriminate|]. simpl in H3.
    destruct (Ascii.eqb c' ",").
    { destruct (parse_members f r4) as [e|[ms' rest']] eqn:E4; [discriminate|].
      intros [= _ <-]. apply IHm in E4. lia. }
    destruct (Ascii.eqb c' "}"); [|discriminate]. intros [= _ <-]. lia.
Qed.

(** Twice the length of the text, and one or two more, is fuel enough. *)
Lemma parse_fuel (fuel : nat) :
  (forall s, (2 * String.length s + 1 <= fuel)%nat -> parse_value fuel s <> inl OutOfFuel)
  /\ (forall s, (2 * String.length s + 2 <= fuel)%nat ->
                parse_elements fuel s <> inl OutOfFuel)
  /\ (forall s, (2 * String.length s + 2 <= fuel)%nat ->
                parse_members fuel s <> inl OutOfFuel).
Proof.
  induction fuel as [|f (IHv & IHe & IHm)]; [repeat split; intros; lia|].
  destruct (parse_shorter f) as (Sv & Se & Sm).
  split; [|split]; intros s Hf; simpl.
  - pose proof (skip_ws_length s) as Hs.
    destruct (skip_ws s) as [|c r]; [discriminate|]. simpl in Hs.
    destruct (Ascii.eqb c "[").
    { destruct (skip_ws r) as [|c' r']; [discriminate|].
      destruct (Ascii.eqb c' "]"); [discriminate|].
      pose proof (IHe r ltac:(lia)).
      destruct (parse_elements f r) as [[]|[items rest']]; congruence. }
    destruct (Ascii.eqb c "{").
    { destruct (skip_ws r) as [|c' r']; [discriminate|].
      destruct (Ascii.eqb c' "}"); [discriminate|].
      pose proof (IHm r ltac:(lia)).
      destruct (parse_members f r) as [[]|[members rest']]; try congruence.
      pose proof (make_object_fuel members).
      destruct (make_object members) as [[]|o]; congruence. }
    destruct (Ascii.eqb c dquote).
    { pose proof (parse_string_body_fuel r).
      destruct (parse_string_body r) as [[]|[str rest']]; congruence. }
    destruct (Ascii.eqb c "t"); [apply parse_keyword_fuel|].
    destruct (Ascii.eqb c "f"); [apply parse_keyword_fuel|].
    destruct (Ascii.eqb c "n"); [apply parse_keyword_fuel|].
    destruct (Ascii.eqb c "-" || is_digit c); [|discriminate].
    pose proof (parse_number_fuel (String c r)).
    destruct (parse_number (String c r)) as [[]|[n rest']]; congruence.
  - pose proof (IHv s ltac:(lia)).
    destruct (parse_value f s) as [[]|[v r]] eqn:E; try congruence. apply Sv in E.
    pose proof (skip_ws_length r) as Hr.
    destruct (skip_ws r) as [|c r']; [discriminate|]. simpl in Hr.
    destruct (Ascii.eqb c ",").
    { pose proof (IHe r' ltac:(lia)).
      destruct (parse_elements f r') as [[]|[vs' rest']]; congruence. }
    destruct (Ascii.eqb c "]"); discriminate.
  - pose proof (skip_ws_length s) as Hs.
    destruct (skip_ws s) as [|q r]; [discriminate|]. simpl in Hs.
    destruct (Ascii.eqb q dquote); [|discriminate].
    pose proof (parse_string_body_fuel r).
    destruct (parse_string_body r) as [[]|[k r1]] eqn:E1; try congruence.
    apply parse_string_body_shorter in E1.
    pose proof (skip_ws_length r1) as H1.
    destruct (skip_ws r1) as [|c r2]; [discriminate|]. simpl in H1.
    destruct (Ascii.eqb c ":"); [|discriminate].
    pose proof (IHv r2 ltac:(lia)).
    destruct (parse_value f r2) as [[]|[v r3]] eqn:E3; try congruence. apply Sv in E3.
    pose proof (skip_ws_length r3) as H3.
    destruct (skip_ws r3) as [|c' r4]; [discriminate|]. simpl in H3.
    destruct (Ascii.eqb c' ",").
    { pose proof (IHm r4 ltac:(lia)).
      destruct (parse_members f r4) as [[]|[ms' rest']]; congruence. }
    destruct (Ascii.eqb c' "}"); discriminate.
Qed.

(** [JSON.parse] always answers: with a value, a [SyntaxError], or the
    mark of a text outside the fragment. *)
Lemma JSON_parse_text_fuel (s : string) : JSON_parse_text s <> inl OutOfFuel.
Proof.
  unfold JSON_parse_text.
  destruct (parse_fuel (2 * String.length s + 2)) as (Hv & _ & _).
  specialize (Hv s ltac:(lia)).
  destruct (parse_value _ s) as [[]|[v rest]]; try congruence.
  destruct (skip_ws rest); discriminate.
Qed.

(** * The benchmark *)

(** ** The four timed calls *)

Lemma bind_Return {A B : Type} (c : M A) (k : A -> M B) (w w' : World) (a : A) :
  c w = (Return a, w') -> bind c k w = k a w'.
Proof. unfold bind. now intros ->. Qed.

Lemma asyncStorageWrite_run (key : string) (v : json) (w : World) :
  asyncStorageWrite key v w
  = (Return (clock w (S (ticks w)) - clock w (ticks w))%float,
     mkWorld (clock w) (S (S (ticks w)))
       (<[key := JSON_stringify v]> (AsyncStorage w)) (storage w)
       (log w ++ [EvNow (clock w (ticks w));
                  EvAsyncSetItem key (JSON_stringify v);
                  EvNow (clock w (S (ticks w)))])).
Proof.
  unfold asyncStorageWrite, bind, performance_now, AsyncStorage_setItem, ret, emit.
  simpl. now rewrite <- !app_assoc.
Qed.

Lemma mmkvWrite_run (key : string) (v : json) (w : World) :
  mmkvWrite key v w
  = (Return (clock w (S (ticks w)) - clock w (ticks w))%float,
     mkWorld (clock w) (S (S (ticks w)))
       (AsyncStorage w) (<[key := JSON_stringify v]> (storage w))
       (log w ++ [EvNow (clock w (ticks w));
                  EvMmkvSet key (JSON_stringify v);
                  EvNow (clock w (S (ticks w)))])).
Proof.
  unfold mmkvWrite, bind, performance_now, storage_set, ret, emit.
  simpl. now rewrite <- !app_assoc.
Qed.

(** A read takes its two clock readings and then parses what it got. *)
Lemma asyncStorageRead_run (key : string) (w : World) :
  asyncStorageRead key w
  = let w' := mkWorld (clock w) (S (S (ticks w))) (AsyncStorage w) (storage w)
                (log w ++ [EvNow (clock w (ticks w));
                           EvAsyncGetItem key;
                           EvNow (clock w (S (ticks w)))]) in
    match JSON_parse (match AsyncStorage w !! key with
                      | Some s => Str s
                      | None => Null
                      end) with
    | inr j => (Return (mkReadResult (clock w (S (ticks w)) - clock w (ticks w))%float j), w')
    | inl e => (Throw e, w')
    end.
Proof.
  unfold asyncStorageRead, bind, performance_now, AsyncStorage_getItem,
    JSON_parse_call, ret, throw, emit.
  simpl. rewrite <- !app_assoc. simpl.
  destruct (JSON_parse _); reflexivity.
Qed.

Lemma mmkvRead_run (key : string) (w : World) :
  mmkvRead key w
  = let w' := mkWorld (clock w) (S (S (ticks w))) (AsyncStorage w) (storage w)
                (log w ++ [EvNow (clock w (ticks w));
                           EvMmkvGetString key;
                           EvNow (clock w (S (ticks w)))]) in
    match JSON_parse (match storage w !! key with
                      | Some s => Str s
                      | None => Undefined
                      end) with
    | inr j => (Return (mkReadResult (clock w (S (ticks w)) - clock w (ticks w))%float j), w')
    | inl e => (Throw e, w')
    end.
Proof.
  unfold mmkvRead, bind, performance_now, storage_getString,
    JSON_parse_call, ret, throw, emit.
  simpl. rewrite <- !app_assoc. simpl.
  destruct (JSON_parse _); reflexivity.
Qed.

(** Reading back what was just written gives the value written. *)
Lemma asyncStorage_write_read (key : string) (v : json) (w : World) :
  plain v = true ->
  exists t w1 r w2,
    asyncStorageWrite key v w = (Return t, w1)
    /\ asyncStorageRead key w1 = (Return r, w2)
    /\ value r = v.
Proof.
  intros Hp. eexists _, _, _, _. split; [apply asyncStorageWrite_run|].
  rewrite asyncStorageRead_run. simpl.
  rewrite lookup_insert_eq, (JSON_parse_stringify v Hp). split; reflexivity.
Qed.

Lemma mmkv_write_read (key : string) (v : json) (w : World) :
  plain v = true ->
  exists t w1 r w2,
    mmkvWrite key v w = (Return t, w1)
    /\ mmkvRead key w1 = (Return r, w2)
    /\ value r = v.
Proof.
  intros Hp. eexists _, _, _, _. split; [apply mmkvWrite_run|].
  rewrite mmkvRead_run. simpl.
  rewrite lookup_insert_eq, (JSON_parse_stringify v Hp). split; reflexivity.
Qed.

(** ** One run *)

(** The state after the four timed calls: eight clock readings later, with
    the text of the payload under the two keys. *)
Lemma four_calls (size : nat) (w : World) :
  exists r2 r4 w1 w2 w3 w4,
    asyncStorageWrite "asyncKey" (data size) w = (Return (elapsed w 0), w1)
    /\ asyncStorageRead "asyncKey" w1 = (Return r2, w2)
    /\ mmkvWrite "mmkvKey" (data size) w2 = (Return (elapsed w 4), w3)
    /\ mmkvRead "mmkvKey" w3 = (Return r4, w4)
    /\ r2 = mkReadResult (elapsed w 2) (data size)
    /\ r4 = mkReadResult (elapsed w 6) (data size)
    /\ w4 = mkWorld (clock w) (8 + ticks w)
              (<["asyncKey" := JSON_stringify (data size)]> (AsyncStorage w))
              (<["mmkvKey" := JSON_stringify (data size)]> (storage w))
              (log w ++ timed_calls w (JSON_stringify (data size))).
Proof.
  pose proof (JSON_parse_stringify (data size) (data_plain size)) as Hparse.
  eexists _, _, _, _, _, _.
  split; [apply asyncStorageWrite_run|].
  split; [rewrite asyncStorageRead_run; cbn [AsyncStorage storage clock ticks log];
          rewrite lookup_insert_eq, Hparse; reflexivity|].
  split; [apply mmkvWrite_run|].
  split; [rewrite mmkvRead_run; cbn [AsyncStorage storage clock ticks log];
          rewrite lookup_insert_eq, Hparse; reflexivity|].
  split; [reflexivity|]. split; [reflexivity|].
  cbn [AsyncStorage storage clock ticks log]. unfold timed_calls.
  rewrite <- !app_assoc. reflexivity.
Qed.

Lemma App_runBenchmark_run (size : nat) (w : World) :
  let text := JSON_stringify (data size) in
  App.runBenchmark size w
  = (Return (App.mkBenchmarkResult size
               (elapsed w 0) (elapsed w 2) ((elapsed w 0 + elapsed w 2) / 2)%float
               (elapsed w 4) (elapsed w 6) ((elapsed w 4 + elapsed w 6) / 2)%float
               (abs (elapsed w 0 - elapsed w 4)%float)
               (abs (elapsed w 2 - elapsed w 6)%float)),
     mkWorld (clock w) (8 + ticks w)
       (<["asyncKey" := text]> (AsyncStorage w))
       (<["mmkvKey" := text]> (storage w))
       (log w ++ timed_calls w text
          ++ [EvConsoleLog "AsyncStorage Read: " (elapsed w 2) "MMKV Read: " (elapsed w 6);
              EvConsoleLog "AsyncStorage Write: " (elapsed w 0)
                "MMKV Write: " (elapsed w 4)])).
Proof.
  destruct (four_calls size w)
    as (r2 & r4 & w1 & w2 & w3 & w4 & H1 & H2 & H3 & H4 & -> & -> & ->).
  unfold App.runBenchmark.
  rewrite (bind_Return _ _ _ _ _ H1), (bind_Return _ _ _ _ _ H2),
    (bind_Return _ _ _ _ _ H3), (bind_Return _ _ _ _ _ H4).
  unfold bind, console_log, ret, emit. cbn [AsyncStorage storage clock ticks log time].
  rewrite <- !app_assoc. reflexivity.
Qed.

Lemma Part000_runBenchmark_run (size : nat) (w : World) :
  let text := JSON_stringify (data size) in
  let wd := abs (elapsed w 0 - elapsed w 4)%float in
  let rd := abs (elapsed w 2 - elapsed w 6)%float in
  Part000.runBenchmark size w
  = (Return (Part000.mkBenchmarkResult size
               (elapsed w 0) (elapsed w 2) (elapsed w 4) (elapsed w 6) wd rd
               (if elapsed w 0 <? elapsed w 4
                then wd / elapsed w 0 * 100 else wd / elapsed w 4 * 100)%float
               (if elapsed w 2 <? elapsed w 6
                then rd / elapsed w 2 * 100 else rd / elapsed w 6 * 100)%float),
     mkWorld (clock w) (8 + ticks w)
       (<["asyncKey" := text]> (AsyncStorage w))
       (<["mmkvKey" := text]> (storage w))
       (log w ++ timed_calls w text)).
Proof.
  destruct (four_calls size w)
    as (r2 & r4 & w1 & w2 & w3 & w4 & H1 & H2 & H3 & H4 & -> & -> & ->).
  unfold Part000.runBenchmark.
  rewrite (bind_Return _ _ _ _ _ H1), (bind_Return _ _ _ _ _ H2),
    (bind_Return _ _ _ _ _ H3), (bind_Return _ _ _ _ _ H4).
  reflexivity.
Qed.

(** ** The result record *)

(** C1: in the result of every run, [writeDifference] is exactly the
    absolute value of the AsyncStorage write time minus the MMKV write
    time, and [readDifference] that of the two read times; this holds in
    [src/App.tsx] and in [src/unnamed/part_000]. *)
Theorem difference_fields_abs (size : nat) (w : World) :
  (exists r w',
      App.runBenchmark size w = (Return r, w')
      /\ App.writeDifference r = abs (App.asyncWriteTime r - App.mmkvWriteTime r)
      /\ App.readDifference r = abs (App.asyncReadTime r - App.mmkvReadTime r))
  /\ (exists r w',
      Part000.runBenchmark size w = (Return r, w')
      /\ Part000.writeDifference r
         = abs (Part000.asyncWriteTime r - Part000.mmkvWriteTime r)
      /\ Part000.readDifference r
         = abs (Part000.asyncReadTime r - Part000.mmkvReadTime r)).
Proof.
  split.
  - eexists _, _. split; [apply App_runBenchmark_run|]. split; reflexivity.
  - eexists _, _. split; [apply Part000_runBenchmark_run|]. split; reflexivity.
Qed.

(** C10: every run of [src/App.tsx] returns a result whose [size] is the
    size it was called with and whose [asyncAvg] and [mmkvAvg] are the sum
    of that backend's write and read times divided by 2. *)
Theorem size_and_averages (size : nat) (w : World) :
  exists r w',
    App.runBenchmark size w = (Return r, w')
    /\ App.size r = size
    /\ App.asyncAvg r = ((App.asyncWriteTime r + App.asyncReadTime r) / 2)%float
    /\ App.mmkvAvg r = ((App.mmkvWriteTime r + App.mmkvReadTime r) / 2)%float.
Proof.
  eexists _, _. split; [apply App_runBenchmark_run|]. repeat split.
Qed.

(** C9: in [src/unnamed/part_000] each percentage difference is the
    difference divided by [Math.min] of the two timings, times 100; this
    holds for all binary64 timings, NaN, infinities and zeros included. *)
Theorem percentage_divides_by_min (size : nat) (w : World) :
  exists r w',
    Part000.runBenchmark size w = (Return r, w')
    /\ Part000.writePercentageDifference r
       = (Part000.writeDifference r
          / Math_min (Part000.asyncWriteTime r) (Part000.mmkvWriteTime r) * 100)%float
    /\ Part000.readPercentageDifference r
       = (Part000.readDifference r
          / Math_min (Part000.asyncReadTime r) (Part000.mmkvReadTime r) * 100)%float.
Proof.
  eexists _, _. split; [apply Part000_runBenchmark_run|].
  split; apply percentage_min.
Qed.

(** C7: when the clock of the platform is monotonic, every run returns,
    and the four timings of its result are not below zero; in both
    revisions of the source. *)
Theorem timings_nonnegative (size : nat) (w : World) :
  clock_monotonic w ->
  (exists r w',
      App.runBenchmark size w = (Return r, w')
      /\ (0 <=? App.asyncWriteTime r)%float = true
      /\ (0 <=? App.asyncReadTime r)%float = true
      /\ (0 <=? App.mmkvWriteTime r)%float = true
      /\ (0 <=? App.mmkvReadTime r)%float = true)
  /\ (exists r w',
      Part000.runBenchmark size w = (Return r, w')
      /\ (0 <=? Part000.asyncWriteTime r)%float = true
      /\ (0 <=? Part000.asyncReadTime r)%float = true
      /\ (0 <=? Part000.mmkvWriteTime r)%float = true
      /\ (0 <=? Part000.mmkvReadTime r)%float = true).
Proof.
  intros Hc.
  assert (He : forall i, (0 <=? elapsed w i)%float = true).
  { intros i. unfold elapsed, reading.
    destruct (Hc (i + ticks w)%nat) as [F1 L]. destruct (Hc (S i + ticks w)%nat) as [F2 _].
    now apply float_sub_nonneg. }
  split.
  - eexists _, _. split; [apply App_runBenchmark_run|]. repeat split; apply He.
  - eexists _, _. split; [apply Part000_runBenchmark_run|]. repeat split; apply He.
Qed.

Lemma example_clock_monotonic : clock_monotonic example_world.
Proof.
  intros i. do 9 (destruct i as [|i]; [split; reflexivity|]). split; reflexivity.
Qed.

Lemma timings_nonnegative_witness :
  clock_monotonic example_world
  /\ (exists r w',
         App.runBenchmark 3 example_world = (Return r, w')
         /\ (0 <=? App.asyncWriteTime r)%float = true
         /\ (0 <=? App.asyncReadTime r)%float = true
         /\ (0 <=? App.mmkvWriteTime r)%float = true
         /\ (0 <=? App.mmkvReadTime r)%float = true).
Proof.
  split; [exact example_clock_monotonic|].
  exact (proj1 (timings_nonnegative 3 example_world example_clock_monotonic)).
Defined.

(** ** The payload and its round trip *)

Lemma data_is_payload (size : nat) : is_payload size (data size).
Proof.
  pose proof (data_lookup size) as Hl.
  unfold data, Array_from in *. eexists. split; [reflexivity|].
  split; [now rewrite length_map, length_seq|].
  intros i Hi. specialize (Hl i).
  destruct (Nat.ltb_spec i size); [|lia].
  eexists. split; [exact Hl|]. split; reflexivity.
Qed.

(** C2: for every size the payload is an array of exactly [size] items
    whose item at index [i] is the object with [id] equal to [i] and
    [value] equal to the text [Data ] followed by [i]; it depends on the
    size only: whatever the state of the platform, a run stores the text
    of this payload under both keys. *)
Theorem payload_deterministic (size : nat) :
  (exists items,
      data size = JArr items
      /\ length items = size
      /\ forall i,
           items !! i
           = if (i <? size)%nat
             then Some (JObj [("id", JNum (Z.of_nat i));
                              ("value", JStr ("Data " +:+ Number_toString (Z.of_nat i)))])
             else None)
  /\ forall w,
       AsyncStorage (App.runBenchmark size w).2 !! "asyncKey"
       = Some (JSON_stringify (data size))
       /\ storage (App.runBenchmark size w).2 !! "mmkvKey"
          = Some (JSON_stringify (data size)).
Proof.
  split.
  - pose proof (data_lookup size) as Hl.
    unfold data, Array_from in *. eexists. split; [reflexivity|].
    split; [now rewrite length_map, length_seq | exact Hl].
  - intros w. rewrite App_runBenchmark_run. cbn [snd AsyncStorage storage].
    split; apply lookup_insert_eq.
Qed.

(** C3: in every run, what is read back from each backend after the write
    decodes to the payload: an array of [size] items whose item at index
    [i] has [id] equal to [i] and [value] equal to [Data ] followed by
    [i].  The four calls are those of the run: their results are the
    timings of its record. *)
Theorem payload_round_trip (size : nat) (w : World) :
  exists t1 w1 r2 w2 t3 w3 r4 w4 r w',
    asyncStorageWrite "asyncKey" (data size) w = (Return t1, w1)
    /\ asyncStorageRead "asyncKey" w1 = (Return r2, w2)
    /\ mmkvWrite "mmkvKey" (data size) w2 = (Return t3, w3)
    /\ mmkvRead "mmkvKey" w3 = (Return r4, w4)
    /\ App.runBenchmark size w = (Return r, w')
    /\ App.asyncWriteTime r = t1 /\ App.asyncReadTime r = time r2
    /\ App.mmkvWriteTime r = t3 /\ App.mmkvReadTime r = time r4
    /\ is_payload size (value r2) /\ is_payload size (value r4).
Proof.
  destruct (four_calls size w)
    as (r2 & r4 & w1 & w2 & w3 & w4 & H1 & H2 & H3 & H4 & -> & -> & _).
  eexists _, _, _, _, _, _, _, _, _, _.
  split; [exact H1|]. split; [exact H2|]. split; [exact H3|]. split; [exact H4|].
  split; [apply App_runBenchmark_run|].
  repeat (split; [reflexivity|]).
  split; apply data_is_payload.
Qed.

(** C5: a run of size 0 returns a result: the payload is the empty array,
    both reads decode to the empty array, and the two difference fields
    are the absolute values of the differences of the timings. *)
Theorem run_of_size_zero (w : World) :
  data 0 = JArr []
  /\ exists t1 w1 r2 w2 t3 w3 r4 w4 r w',
       asyncStorageWrite "asyncKey" (data 0) w = (Return t1, w1)
       /\ asyncStorageRead "asyncKey" w1 = (Return r2, w2)
       /\ mmkvWrite "mmkvKey" (data 0) w2 = (Return t3, w3)
       /\ mmkvRead "mmkvKey" w3 = (Return r4, w4)
       /\ value r2 = JArr [] /\ value r4 = JArr []
       /\ App.runBenchmark 0 w = (Return r, w')
       /\ App.writeDifference r = abs (t1 - t3)
       /\ App.readDifference r = abs (time r2 - time r4).
Proof.
  split; [reflexivity|].
  destruct (four_calls 0 w)
    as (r2 & r4 & w1 & w2 & w3 & w4 & H1 & H2 & H3 & H4 & -> & -> & _).
  eexists _, _, _, _, _, _, _, _, _, _.
  split; [exact H1|]. split; [exact H2|]. split; [exact H3|]. split; [exact H4|].
  split; [reflexivity|]. split; [reflexivity|].
  split; [apply App_runBenchmark_run|]. split; reflexivity.
Qed.

(** ** Reading a key that was never written *)

(** C4, as the code has it, backend by backend: on a key that was never
    written to AsyncStorage, [asyncStorageRead] does not fail: it returns
    its timing with the value [null], since [JSON.parse(null)] is [null];
    on a key that was never written to the MMKV store, [mmkvRead] fails,
    with the [SyntaxError] of [JSON.parse(undefined)].  Each half asks
    nothing of the other store. *)
Theorem read_of_missing_key (key : string) (w : World) :
  (AsyncStorage w !! key = None ->
   (asyncStorageRead key w).1 = Return (mkReadResult (elapsed w 0) JNull))
  /\ (storage w !! key = None -> (mmkvRead key w).1 = Throw SyntaxError).
Proof.
  rewrite asyncStorageRead_run, mmkvRead_run.
  split; intros ->; reflexivity.
Qed.

(** In [stale_world] the key [mmkvKey] is in the MMKV store only and the
    key [asyncKey] in AsyncStorage only. *)
Lemma read_of_missing_key_witness :
  (AsyncStorage stale_world !! "mmkvKey" = None
   /\ storage stale_world !! "mmkvKey" = Some "]"
   /\ (asyncStorageRead "mmkvKey" stale_world).1
      = Return (mkReadResult (elapsed stale_world 0) JNull))
  /\ (storage stale_world !! "asyncKey" = None
      /\ AsyncStorage stale_world !! "asyncKey" = Some "{oops"
      /\ (mmkvRead "asyncKey" stale_world).1 = Throw SyntaxError).
Proof.
  split.
  - split; [reflexivity|]. split; [reflexivity|].
    apply (proj1 (read_of_missing_key "mmkvKey" stale_world)). reflexivity.
  - split; [reflexivity|]. split; [reflexivity|].
    apply (proj2 (read_of_missing_key "asyncKey" stale_world)). reflexivity.
Defined.

(** C4 as stated fails: in a world where nothing was ever written,
    [asyncStorageRead] returns a result, with the value [null], and throws
    nothing. *)
Lemma asyncStorageRead_missing_key_succeeds :
  AsyncStorage example_world !! "asyncKey" = None
  /\ (asyncStorageRead "asyncKey" example_world).1 = Return (mkReadResult 3.5 JNull)
  /\ ~ exists e, (asyncStorageRead "asyncKey" example_world).1 = Throw e.
Proof.
  split; [reflexivity|]. split; [reflexivity|].
  intros [e H]. vm_compute in H. discriminate H.
Qed.

(** ** Order of the calls and what a run changes *)

(** The platform calls of a run, in both revisions, when every awaited call
    is taken as one step: in this order the AsyncStorage write, the
    AsyncStorage read, the MMKV write and the MMKV read, each one between
    the two clock readings of its own timer, and each timing of the result
    is the difference of those two readings.  The order of completion of
    the asynchronous calls is stated on the execution with promises, in the
    last part on the claims. *)
Lemma timed_calls_sequential (size : nat) (w : World) :
  let text := JSON_stringify (data size) in
  let calls :=
    [EvNow (reading w 0); EvAsyncSetItem "asyncKey" text; EvNow (reading w 1);
     EvNow (reading w 2); EvAsyncGetItem "asyncKey"; EvNow (reading w 3);
     EvNow (reading w 4); EvMmkvSet "mmkvKey" text; EvNow (reading w 5);
     EvNow (reading w 6); EvMmkvGetString "mmkvKey"; EvNow (reading w 7)] in
  (exists r w',
      App.runBenchmark size w = (Return r, w')
      /\ log w' = (log w ++ calls
                     ++ [EvConsoleLog "AsyncStorage Read: " (App.asyncReadTime r)
                           "MMKV Read: " (App.mmkvReadTime r);
                         EvConsoleLog "AsyncStorage Write: " (App.asyncWriteTime r)
                           "MMKV Write: " (App.mmkvWriteTime r)])%list
      /\ App.asyncWriteTime r = (reading w 1 - reading w 0)%float
      /\ App.asyncReadTime r = (reading w 3 - reading w 2)%float
      /\ App.mmkvWriteTime r = (reading w 5 - reading w 4)%float
      /\ App.mmkvReadTime r = (reading w 7 - reading w 6)%float)
  /\ (exists r w',
      Part000.runBenchmark size w = (Return r, w')
      /\ log w' = (log w ++ calls)%list
      /\ Part000.asyncWriteTime r = (reading w 1 - reading w 0)%float
      /\ Part000.asyncReadTime r = (reading w 3 - reading w 2)%float
      /\ Part000.mmkvWriteTime r = (reading w 5 - reading w 4)%float
      /\ Part000.mmkvReadTime r = (reading w 7 - reading w 6)%float).
Proof.
  split.
  - eexists _, _. split; [apply App_runBenchmark_run|]. repeat split.
  - eexists _, _. split; [apply Part000_runBenchmark_run|]. repeat split.
Qed.

(** C8 as stated fails: a run mutates global state other than the
    history.  From a world with empty stores, a run of size 0 leaves the
    text [[]] in AsyncStorage under [asyncKey] and in the module-level
    MMKV store under [mmkvKey]. *)
Lemma run_overwrites_global_stores :
  (AsyncStorage example_world !! "asyncKey" = None
   /\ AsyncStorage (App.runBenchmark 0 example_world).2 !! "asyncKey" = Some "[]"
   /\ AsyncStorage (App.runBenchmark 0 example_world).2 <> AsyncStorage example_world)
  /\ (storage example_world !! "mmkvKey" = None
      /\ storage (App.runBenchmark 0 example_world).2 !! "mmkvKey" = Some "[]"
      /\ storage (App.runBenchmark 0 example_world).2 <> storage example_world).
Proof.
  split.
  - split; [reflexivity|]. split; [reflexivity|].
    intros H. apply (f_equal (fun m : gmap string string => m !! "asyncKey")) in H.
    vm_compute in H. discriminate H.
  - split; [reflexivity|]. split; [reflexivity|].
    intros H. apply (f_equal (fun m : gmap string string => m !! "mmkvKey")) in H.
    vm_compute in H. discriminate H.
Qed.

(** C8, as the code has it: a run mutates two global stores and nothing
    else.  It overwrites AsyncStorage under [asyncKey] and the
    module-level MMKV store under [mmkvKey] with the text of its payload
    and leaves every other key of both stores as it was; the clock is as
    before, eight readings further, and the log of calls is only
    extended.  The handler appends the result of the run to the history
    and changes nothing else of it. *)
Theorem run_frame (size : nat) (w : World) :
  (forall results,
      exists r w' calls,
        App.runBenchmark size w = (Return r, w')
        /\ App.handleRunTests size results w = (Return (results ++ [r])%list, w')
        /\ clock w' = clock w /\ ticks w' = (8 + ticks w)%nat
        /\ log w' = (log w ++ calls)%list
        /\ AsyncStorage w' = <["asyncKey" := JSON_stringify (data size)]> (AsyncStorage w)
        /\ storage w' = <["mmkvKey" := JSON_stringify (data size)]> (storage w)
        /\ delete "asyncKey" (AsyncStorage w') = delete "asyncKey" (AsyncStorage w)
        /\ delete "mmkvKey" (storage w') = delete "mmkvKey" (storage w))
  /\ (forall results,
      exists r w' calls,
        Part000.runBenchmark size w = (Return r, w')
        /\ Part000.handleRunTests size results w = (Return (results ++ [r])%list, w')
        /\ clock w' = clock w /\ ticks w' = (8 + ticks w)%nat
        /\ log w' = (log w ++ calls)%list
        /\ AsyncStorage w' = <["asyncKey" := JSON_stringify (data size)]> (AsyncStorage w)
        /\ storage w' = <["mmkvKey" := JSON_stringify (data size)]> (storage w)
        /\ delete "asyncKey" (AsyncStorage w') = delete "asyncKey" (AsyncStorage w)
        /\ delete "mmkvKey" (storage w') = delete "mmkvKey" (storage w)).
Proof.
  split; intros results; eexists _, _, _.
  - split; [apply App_runBenchmark_run|].
    split; [unfold App.handleRunTests;
            erewrite bind_Return by apply App_runBenchmark_run; reflexivity|].
    cbn [clock ticks log AsyncStorage storage].
    repeat split; apply delete_insert_eq.
  - split; [apply Part000_runBenchmark_run|].
    split; [unfold Part000.handleRunTests;
            erewrite bind_Return by apply Part000_runBenchmark_run; reflexivity|].
    cbn [clock ticks log AsyncStorage storage].
    repeat split; apply delete_insert_eq.
Qed.

(** * The order of completion *)

Lemma take_at_singleton {A : Type} (i : nat) (x : A) :
  Async.take_at i [x] = Some (x, []).
Proof. destruct i as [|[|i]]; reflexivity. Qed.

Lemma schedule_ready (n : nat) (pick : Async.State -> nat) (st : Async.State)
    (prog : Async.Prog) (own : Async.Promise) (rest : list (Async.Prog * Async.Promise)) :
  Async.ready st = (prog, own) :: rest ->
  Async.schedule (S n) pick st
  = Async.schedule n pick
      (Async.run prog own
         (Async.mkState (Async.world st) (Async.trace st) (Async.settled st)
            (Async.inflight st) (Async.waiting st) rest (Async.next st))).
Proof. intros H. cbn [Async.schedule]. rewrite H. reflexivity. Qed.

Lemma schedule_complete (n : nat) (pick : Async.State -> nat) (st : Async.State)
    (p : Async.Promise) (op : Async.Op) :
  Async.ready st = [] -> Async.inflight st = [(p, op)] ->
  Async.schedule (S n) pick st
  = Async.schedule n pick
      (Async.complete p op
         (Async.mkState (Async.world st) (Async.trace st) (Async.settled st)
            [] (Async.waiting st) [] (Async.next st))).
Proof.
  intros Hr Hi. cbn [Async.schedule]. rewrite Hr, Hi, take_at_singleton. reflexivity.
Qed.

Lemma schedule_idle (n : nat) (pick : Async.State -> nat) (st : Async.State) :
  Async.ready st = [] -> Async.inflight st = [] -> Async.schedule n pick st = st.
Proof.
  intros Hr Hi. destruct n as [|n]; [reflexivity|].
  cbn [Async.schedule]. rewrite Hr, Hi. destruct (pick st); reflexivity.
Qed.

(** The state under [schedule] is evaluated between two steps of the
    engine; the steps themselves are the three equations above. *)
Ltac async_eval t :=
  eval lazy beta iota zeta delta
      [Async.run Async.settle Async.complete Async.record
       Async.find_settled Async.after
       Async.world Async.trace Async.settled Async.inflight Async.waiting
       Async.ready Async.next Async.awaited Async.resume Async.owner
       Async.runBenchmark Async.Part000_runBenchmark Async.asyncStorageWrite Async.asyncStorageRead
       Async.mmkvWrite Async.mmkvRead
       Async.AwaitText Async.AwaitNumber Async.AwaitReadResult
       List.filter List.map List.find app Nat.eqb negb fst snd
       performance_now AsyncStorage_setItem AsyncStorage_getItem
       storage_set storage_getString console_log emit
       clock ticks AsyncStorage storage log time value] in t.

Ltac async_norm :=
  match goal with
  | |- context [Async.schedule _ _ ?s] =>
      let s' := async_eval s in change s with s'
  end.

Ltac async_complete :=
  match goal with
  | |- context [Async.schedule (S ?n) ?pick ?st] =>
      erewrite (schedule_complete n pick st _ _ eq_refl eq_refl)
  end; async_norm.

Ltac async_ready :=
  match goal with
  | |- context [Async.schedule (S ?n) ?pick ?st] =>
      erewrite (schedule_ready n pick st _ _ _ eq_refl)
  end; async_norm.

Ltac fold_app :=
  let f := eval cbv beta delta [app] in (@app Event) in
  change f with (@app Event).

(** The whole execution of a run, for every choice [pick] of the platform
    and every fuel from 6 on: the final state of the engine. *)
Lemma exec_runBenchmark (pick : Async.State -> nat) (size n : nat) (w : World) :
  let text := JSON_stringify (data size) in
  Async.exec (6 + n) pick (Async.runBenchmark size) w
  = Async.mkState
      (mkWorld (clock w) (8 + ticks w)
         (<["asyncKey" := text]> (AsyncStorage w))
         (<["mmkvKey" := text]> (storage w))
         (log w ++ timed_calls w text
            ++ [EvConsoleLog "AsyncStorage Read: " (elapsed w 2) "MMKV Read: " (elapsed w 6);
                EvConsoleLog "AsyncStorage Write: " (elapsed w 0)
                  "MMKV Write: " (elapsed w 4)]))
      [Async.ANow (reading w 0);
       Async.AIssued 2 (Async.OpSetItem "asyncKey" text);
       Async.ACompleted 2;
       Async.ANow (reading w 1);
       Async.ANow (reading w 2);
       Async.AIssued 4 (Async.OpGetItem "asyncKey");
       Async.ACompleted 4;
       Async.ANow (reading w 3);
       Async.ANow (reading w 4);
       Async.AMmkvSet "mmkvKey" text;
       Async.ANow (reading w 5);
       Async.ANow (reading w 6);
       Async.AMmkvGetString "mmkvKey";
       Async.ANow (reading w 7);
       Async.AConsoleLog "AsyncStorage Read: " (elapsed w 2) "MMKV Read: " (elapsed w 6);
       Async.AConsoleLog "AsyncStorage Write: " (elapsed w 0) "MMKV Write: " (elapsed w 4)]
      [(0, Return (Async.VBenchmarkResult
                     (App.mkBenchmarkResult size
                        (elapsed w 0) (elapsed w 2) ((elapsed w 0 + elapsed w 2) / 2)%float
                        (elapsed w 4) (elapsed w 6) ((elapsed w 4 + elapsed w 6) / 2)%float
                        (abs (elapsed w 0 - elapsed w 4)%float)
                        (abs (elapsed w 2 - elapsed w 6)%float))));
       (3, Return (Async.VReadResult (mkReadResult (elapsed w 2) (data size))));
       (4, Return (Async.VText (Str text)));
       (1, Return (Async.VNumber (elapsed w 0)));
       (2, Return (Async.VText Undefined))]
      [] [] [] 5.
Proof.
  intros text. subst text. destruct w as [c t a s l].
  unfold Async.exec. change (6 + n) with (S (S (S (S (S (S n)))))).
  async_norm.
  async_complete.
  async_ready.
  async_ready.
  async_complete.
  rewrite lookup_insert_eq. async_norm.
  rewrite (JSON_parse_stringify _ (data_plain size)).
  async_ready.
  async_ready.
  rewrite lookup_insert_eq, (JSON_parse_stringify _ (data_plain size)).
  async_norm.
  rewrite schedule_idle by reflexivity.
  fold_app. rewrite <- !app_assoc. reflexivity.
Qed.

Lemma exec_Part000_runBenchmark (pick : Async.State -> nat) (size n : nat) (w : World) :
  let text := JSON_stringify (data size) in
  let wd := abs (elapsed w 0 - elapsed w 4)%float in
  let rd := abs (elapsed w 2 - elapsed w 6)%float in
  Async.exec (6 + n) pick (Async.Part000_runBenchmark size) w
  = Async.mkState
      (mkWorld (clock w) (8 + ticks w)
         (<["asyncKey" := text]> (AsyncStorage w))
         (<["mmkvKey" := text]> (storage w))
         (log w ++ timed_calls w text))
      [Async.ANow (reading w 0);
       Async.AIssued 2 (Async.OpSetItem "asyncKey" text);
       Async.ACompleted 2;
       Async.ANow (reading w 1);
       Async.ANow (reading w 2);
       Async.AIssued 4 (Async.OpGetItem "asyncKey");
       Async.ACompleted 4;
       Async.ANow (reading w 3);
       Async.ANow (reading w 4);
       Async.AMmkvSet "mmkvKey" text;
       Async.ANow (reading w 5);
       Async.ANow (reading w 6);
       Async.AMmkvGetString "mmkvKey";
       Async.ANow (reading w 7)]
      [(0, Return (Async.VBenchmarkResult000
                     (Part000.mkBenchmarkResult size
                        (elapsed w 0) (elapsed w 2) (elapsed w 4) (elapsed w 6) wd rd
                        (if elapsed w 0 <? elapsed w 4
                         then wd / elapsed w 0 * 100 else wd / elapsed w 4 * 100)%float
                        (if elapsed w 2 <? elapsed w 6
                         then rd / elapsed w 2 * 100 else rd / elapsed w 6 * 100)%float)));
       (3, Return (Async.VReadResult (mkReadResult (elapsed w 2) (data size))));
       (4, Return (Async.VText (Str text)));
       (1, Return (Async.VNumber (elapsed w 0)));
       (2, Return (Async.VText Undefined))]
      [] [] [] 5.
Proof.
  intros text wd rd. subst text wd rd. destruct w as [c t a s l].
  unfold Async.exec. change (6 + n) with (S (S (S (S (S (S n)))))).
  async_norm.
  async_complete.
  async_ready.
  async_ready.
  async_complete.
  rewrite lookup_insert_eq. async_norm.
  rewrite (JSON_parse_stringify _ (data_plain size)).
  async_ready.
  async_ready.
  rewrite lookup_insert_eq, (JSON_parse_stringify _ (data_plain size)).
  async_norm.
  rewrite schedule_idle by reflexivity.
  fold_app. rewrite <- !app_assoc. reflexivity.
Qed.

(** C6: in the execution of a run with its promises, in both revisions,
    whatever the platform chooses to complete and for every fuel from 6
    on, the run settles with the record of [runBenchmark] and leaves
    nothing in flight, and what happens is, in this order: the timer of the
    AsyncStorage write starts, the write is issued and completes, its
    timer stops; only then the timer of the AsyncStorage read starts, the
    read is issued and completes, its timer stops; only then the timer of
    the MMKV write starts, the write is done, its timer stops; only then
    the timer of the MMKV read starts, the read is done, its timer stops.
    The completion of each AsyncStorage operation comes before the clock
    reading that stops its timer, so before the next timer starts, and
    each timing of the record is the difference of the two readings of
    its own timer. *)
Theorem awaited_calls_complete_in_order
    (pick : Async.State -> nat) (size n : nat) (w : World) :
  let text := JSON_stringify (data size) in
  let calls :=
    [Async.ANow (reading w 0);
     Async.AIssued 2 (Async.OpSetItem "asyncKey" text);
     Async.ACompleted 2;
     Async.ANow (reading w 1);
     Async.ANow (reading w 2);
     Async.AIssued 4 (Async.OpGetItem "asyncKey");
     Async.ACompleted 4;
     Async.ANow (reading w 3);
     Async.ANow (reading w 4);
     Async.AMmkvSet "mmkvKey" text;
     Async.ANow (reading w 5);
     Async.ANow (reading w 6);
     Async.AMmkvGetString "mmkvKey";
     Async.ANow (reading w 7)] in
  (let st := Async.exec (6 + n) pick (Async.runBenchmark size) w in
   exists r,
     Async.trace st
     = (calls ++ [Async.AConsoleLog "AsyncStorage Read: " (App.asyncReadTime r)
                    "MMKV Read: " (App.mmkvReadTime r);
                  Async.AConsoleLog "AsyncStorage Write: " (App.asyncWriteTime r)
                    "MMKV Write: " (App.mmkvWriteTime r)])%list
     /\ Async.find_settled 0 (Async.settled st) = Some (Return (Async.VBenchmarkResult r))
     /\ App.runBenchmark size w = (Return r, Async.world st)
     /\ App.asyncWriteTime r = (reading w 1 - reading w 0)%float
     /\ App.asyncReadTime r = (reading w 3 - reading w 2)%float
     /\ App.mmkvWriteTime r = (reading w 5 - reading w 4)%float
     /\ App.mmkvReadTime r = (reading w 7 - reading w 6)%float
     /\ Async.inflight st = [] /\ Async.waiting st = [] /\ Async.ready st = [])
  /\ (let st := Async.exec (6 + n) pick (Async.Part000_runBenchmark size) w in
      exists r,
        Async.trace st = calls
        /\ Async.find_settled 0 (Async.settled st)
           = Some (Return (Async.VBenchmarkResult000 r))
        /\ Part000.runBenchmark size w = (Return r, Async.world st)
        /\ Part000.asyncWriteTime r = (reading w 1 - reading w 0)%float
        /\ Part000.asyncReadTime r = (reading w 3 - reading w 2)%float
        /\ Part000.mmkvWriteTime r = (reading w 5 - reading w 4)%float
        /\ Part000.mmkvReadTime r = (reading w 7 - reading w 6)%float
        /\ Async.inflight st = [] /\ Async.waiting st = [] /\ Async.ready st = []).
Proof.
  intros text calls. split; intros st; subst st.
  - pose proof (exec_runBenchmark pick size n w) as H. cbv zeta in H. rewrite H.
    eexists. split; [|split; [reflexivity|]].
    + reflexivity.
    + split; [apply App_runBenchmark_run|]. repeat split.
  - pose proof (exec_Part000_runBenchmark pick size n w) as H. cbv zeta in H. rewrite H.
    eexists. split; [|split; [reflexivity|]].
    + reflexivity.
    + split; [apply Part000_runBenchmark_run|]. repeat split.
Qed.

(** What [await] is for: the same engine runs a call that is not awaited
    with the code after it while the operation is still in flight.  Here
    the AsyncStorage write is called and the MMKV write follows without an
    [await] between them: the timer of the MMKV write starts, and stops,
    before the AsyncStorage write completes. *)
Example call_without_await_overlaps (pick : Async.State -> nat) :
  Async.trace
    (Async.exec 3 pick
       (Async.Call (Async.asyncStorageWrite "asyncKey" (data 0))
          (fun _ => Async.mmkvWrite "mmkvKey" (data 0)
                      (fun t => Async.Ret (Async.VNumber t))))
       example_world)
  = [Async.ANow 100; Async.AIssued 2 (Async.OpSetItem "asyncKey" "[]");
     Async.ANow 103.5; Async.AMmkvSet "mmkvKey" "[]"; Async.ANow 104;
     Async.ACompleted 2; Async.ANow 104.25].
Proof.
  unfold Async.exec, example_world.
  async_norm.
  async_complete.
  async_ready.
  rewrite schedule_idle by reflexivity.
  reflexivity.
Qed.

(** * Further properties of the code *)

(** ** The two backends as stores *)

(** X1: in both backends a write followed by a read of the same key gives
    back the value written, whatever the store held before. *)
Theorem write_then_read (key : string) (v : json) (w : World) :
  plain v = true ->
  decoded (asyncStorageRead key (asyncStorageWrite key v w).2).1 = inr v
  /\ decoded (mmkvRead key (mmkvWrite key v w).2).1 = inr v.
Proof.
  intros Hp. rewrite asyncStorageWrite_run, mmkvWrite_run.
  rewrite asyncStorageRead_run, mmkvRead_run.
  cbn [snd AsyncStorage storage clock ticks log].
  rewrite !lookup_insert_eq, (JSON_parse_stringify v Hp). split; reflexivity.
Qed.

Lemma write_then_read_witness :
  plain (data 3) = true
  /\ decoded (asyncStorageRead "k" (asyncStorageWrite "k" (data 3) stale_world).2).1
     = inr (data 3)
  /\ decoded (mmkvRead "k" (mmkvWrite "k" (data 3) stale_world).2).1 = inr (data 3).
Proof.
  split; [reflexivity|].
  apply (write_then_read "k" (data 3) stale_world). reflexivity.
Defined.

(** X2: a write under one key does not change what a read of another key
    of the same backend gives. *)
Theorem write_other_key (key key' : string) (v : json) (w : World) :
  key <> key' ->
  decoded (asyncStorageRead key' (asyncStorageWrite key v w).2).1
  = decoded (asyncStorageRead key' w).1
  /\ decoded (mmkvRead key' (mmkvWrite key v w).2).1 = decoded (mmkvRead key' w).1.
Proof.
  intros Hk. rewrite asyncStorageWrite_run, mmkvWrite_run.
  rewrite !asyncStorageRead_run, !mmkvRead_run.
  cbn [snd AsyncStorage storage clock ticks log].
  rewrite !lookup_insert_ne by exact Hk.
  split.
  - destruct (JSON_parse _); reflexivity.
  - destruct (JSON_parse _); reflexivity.
Qed.

Lemma write_other_key_witness :
  "asyncKey" <> "other"
  /\ decoded (asyncStorageRead "other" (asyncStorageWrite "asyncKey" (data 2) stale_world).2).1
     = decoded (asyncStorageRead "other" stale_world).1
  /\ decoded (mmkvRead "other" (mmkvWrite "asyncKey" (data 2) stale_world).2).1
     = decoded (mmkvRead "other" stale_world).1.
Proof.
  split; [discriminate|].
  apply (write_other_key "asyncKey" "other" (data 2) stale_world). discriminate.
Defined.

(** X3: the two backends are apart: a write to AsyncStorage changes no
    read of MMKV and a write to MMKV no read of AsyncStorage, even under
    the same key. *)
Theorem write_other_backend (key key' : string) (v : json) (w : World) :
  decoded (mmkvRead key' (asyncStorageWrite key v w).2).1 = decoded (mmkvRead key' w).1
  /\ decoded (asyncStorageRead key' (mmkvWrite key v w).2).1
     = decoded (asyncStorageRead key' w).1.
Proof.
  rewrite asyncStorageWrite_run, mmkvWrite_run.
  rewrite !asyncStorageRead_run, !mmkvRead_run.
  cbn [snd AsyncStorage storage clock ticks log].
  split.
  - destruct (JSON_parse _); reflexivity.
  - destruct (JSON_parse _); reflexivity.
Qed.

(** X4: a read never writes: whether it returns or throws, both stores
    and the clock are as before, and it has taken exactly its two clock
    readings, the second one before the text is parsed. *)
Theorem read_changes_no_store (key : string) (w : World) :
  (AsyncStorage (asyncStorageRead key w).2 = AsyncStorage w
   /\ storage (asyncStorageRead key w).2 = storage w
   /\ clock (asyncStorageRead key w).2 = clock w
   /\ ticks (asyncStorageRead key w).2 = (2 + ticks w)%nat)
  /\ (AsyncStorage (mmkvRead key w).2 = AsyncStorage w
      /\ storage (mmkvRead key w).2 = storage w
      /\ clock (mmkvRead key w).2 = clock w
      /\ ticks (mmkvRead key w).2 = (2 + ticks w)%nat).
Proof.
  rewrite asyncStorageRead_run, mmkvRead_run. cbv zeta.
  split.
  - destruct (JSON_parse _); repeat split.
  - destruct (JSON_parse _); repeat split.
Qed.

(** X5: when a read fails, for a stored text of the modelled fragment of
    JSON.  [asyncStorageRead] throws exactly when there is a text under
    the key and [JSON.parse] rejects it; [mmkvRead] throws exactly when
    the key is missing or [JSON.parse] rejects the text; what is thrown is
    a [SyntaxError].  Each half asks nothing of the other store. *)
Theorem read_throws_iff (key : string) (w : World) :
  (modelled_text (AsyncStorage w !! key) ->
   ((exists e, (asyncStorageRead key w).1 = Throw e)
    <-> exists s, AsyncStorage w !! key = Some s /\ JSON_parse (Str s) = inl SyntaxError)
   /\ forall e, (asyncStorageRead key w).1 = Throw e -> e = SyntaxError)
  /\ (modelled_text (storage w !! key) ->
      ((exists e, (mmkvRead key w).1 = Throw e)
       <-> storage w !! key = None
           \/ exists s, storage w !! key = Some s /\ JSON_parse (Str s) = inl SyntaxError)
      /\ forall e, (mmkvRead key w).1 = Throw e -> e = SyntaxError).
Proof.
  assert (Hcases : forall s e, JSON_parse (Str s) = inl e ->
                     JSON_parse (Str s) <> inl Unsupported -> e = SyntaxError).
  { intros s e He Hu. pose proof (JSON_parse_text_fuel s) as Hf.
    unfold JSON_parse, ToString in *. destruct e; congruence. }
  rewrite asyncStorageRead_run, mmkvRead_run. cbv zeta. split; intros Hm.
  - destruct (AsyncStorage w !! key) as [s|] eqn:E.
    + specialize (Hm s eq_refl). pose proof (Hcases s) as Hc.
      destruct (JSON_parse (Str s)) as [e|j] eqn:P; simpl.
      * pose proof (Hc e eq_refl Hm) as ->. split; [split|].
        -- intros _. eauto.
        -- intros _. eauto.
        -- now intros e [= <-].
      * split; [split|].
        -- intros [e H]. discriminate H.
        -- intros (s' & [= <-] & H). congruence.
        -- intros e H. discriminate H.
    + simpl. split; [split|].
      * intros [e H]. discriminate H.
      * intros (s & H & _). discriminate H.
      * intros e H. discriminate H.
  - destruct (storage w !! key) as [s|] eqn:E.
    + specialize (Hm s eq_refl). pose proof (Hcases s) as Hc.
      destruct (JSON_parse (Str s)) as [e|j] eqn:P; simpl.
      * pose proof (Hc e eq_refl Hm) as ->. split; [split|].
        -- intros _. right. eauto.
        -- intros _. eauto.
        -- now intros e [= <-].
      * split; [split|].
        -- intros [e H]. discriminate H.
        -- intros [H | (s' & [= <-] & H)]; [discriminate H | congruence].
        -- intros e H. discriminate H.
    + simpl. split; [split|].
      * intros _. now left.
      * intros _. eauto.
      * now intros e [= <-].
Qed.

(** In [stale_world] the text under [asyncKey] opens an object that never
    closes and the text under [mmkvKey] is a lone closing bracket. *)
Lemma read_throws_iff_witness :
  (modelled_text (AsyncStorage stale_world !! "asyncKey")
   /\ (asyncStorageRead "asyncKey" stale_world).1 = Throw SyntaxError
   /\ forall e, (asyncStorageRead "asyncKey" stale_world).1 = Throw e -> e = SyntaxError)
  /\ (modelled_text (storage stale_world !! "mmkvKey")
      /\ (mmkvRead "mmkvKey" stale_world).1 = Throw SyntaxError
      /\ forall e, (mmkvRead "mmkvKey" stale_world).1 = Throw e -> e = SyntaxError).
Proof.
  assert (Ha : modelled_text (AsyncStorage stale_world !! "asyncKey")).
  { intros s H. vm_compute in H. injection H as <-. vm_compute. discriminate. }
  assert (Hm : modelled_text (storage stale_world !! "mmkvKey")).
  { intros s H. vm_compute in H. injection H as <-. vm_compute. discriminate. }
  split.
  - split; [exact Ha|]. split; [reflexivity|].
    exact (proj2 (proj1 (read_throws_iff "asyncKey" stale_world) Ha)).
  - split; [exact Hm|]. split; [reflexivity|].
    exact (proj2 (proj2 (read_throws_iff "mmkvKey" stale_world) Hm)).
Defined.

(** ** Runs one after the other *)

Lemma elapsed_shift (w w' : World) (k j : nat) :
  clock w' = clock w -> ticks w' = (k + ticks w)%nat ->
  elapsed w' j = elapsed w (j + k).
Proof.
  intros Hc Ht. unfold elapsed, reading. rewrite Hc, Ht.
  now replace (S j + (k + ticks w))%nat with (S (j + k) + ticks w)%nat by lia;
    replace (j + (k + ticks w))%nat with (j + k + ticks w)%nat by lia.
Qed.

Lemma bars_measured_shift (w w' : World) (k : nat) (c : ChartData) :
  clock w' = clock w -> ticks w' = (k + ticks w)%nat ->
  bars_measured w' c -> bars_measured w c.
Proof.
  intros Hc Ht [i H]. exists (i + k)%nat. rewrite H.
  now rewrite !(elapsed_shift w w' k) by assumption.
Qed.

Lemma stores_after_cons (sizeOf : Button -> nat) (b : Button) (bs : list Button)
    (w w1 : World) :
  AsyncStorage w1 = <["asyncKey" := JSON_stringify (data (sizeOf b))]> (AsyncStorage w) ->
  storage w1 = <["mmkvKey" := JSON_stringify (data (sizeOf b))]> (storage w) ->
  stores_after sizeOf bs w1 = stores_after sizeOf (b :: bs) w.
Proof.
  intros Ha Hs. unfold stores_after.
  destruct bs as [|b' bs]; [simpl; now rewrite Ha, Hs|].
  rewrite last_cons_cons. destruct (last (b' :: bs)) as [c|] eqn:E.
  - rewrite Ha, Hs. f_equal; apply insert_insert_eq.
  - apply last_None in E. discriminate E.
Qed.

Lemma App_onPress_run (b : Button) (results : list App.BenchmarkResult) (w : World) :
  exists r w',
    App_onPress b results w = (Return (results ++ [r])%list, w')
    /\ App.size r = App_buttonSize b
    /\ bars_measured w (App_barChartData r)
    /\ clock w' = clock w /\ ticks w' = (8 + ticks w)%nat
    /\ AsyncStorage w'
       = <["asyncKey" := JSON_stringify (data (App_buttonSize b))]> (AsyncStorage w)
    /\ storage w' = <["mmkvKey" := JSON_stringify (data (App_buttonSize b))]> (storage w).
Proof.
  replace (App_onPress b) with (App.handleRunTests (App_buttonSize b))
    by now destruct b.
  eexists _, _. split.
  - unfold App.handleRunTests.
    erewrite bind_Return by apply App_runBenchmark_run. reflexivity.
  - split; [reflexivity|]. split; [now exists 0%nat|]. repeat split.
Qed.

Lemma Part000_onPress_run (b : Button) (results : list Part000.BenchmarkResult) (w : World) :
  exists r w',
    Part000_onPress b results w = (Return (results ++ [r])%list, w')
    /\ Part000.size r = Part000_buttonSize b
    /\ bars_measured w (Part000_barChartData r)
    /\ clock w' = clock w /\ ticks w' = (8 + ticks w)%nat
    /\ AsyncStorage w'
       = <["asyncKey" := JSON_stringify (data (Part000_buttonSize b))]> (AsyncStorage w)
    /\ storage w'
       = <["mmkvKey" := JSON_stringify (data (Part000_buttonSize b))]> (storage w).
Proof.
  replace (Part000_onPress b) with (Part000.handleRunTests (Part000_buttonSize b))
    by now destruct b.
  eexists _, _. split.
  - unfold Part000.handleRunTests.
    erewrite bind_Return by apply Part000_runBenchmark_run. reflexivity.
  - split; [reflexivity|]. split; [now exists 0%nat|]. repeat split.
Qed.

(** Any number of presses: what one press does, press after press. *)
Section Session.

Context {R : Type}.
Variable onPress : Button -> list R -> M (list R).
Variable sizeOf : Button -> nat.
Variable size : R -> nat.
Variable chart : R -> ChartData.

Hypothesis onPress_run : forall b results w,
  exists r w',
    onPress b results w = (Return (results ++ [r])%list, w')
    /\ size r = sizeOf b
    /\ bars_measured w (chart r)
    /\ clock w' = clock w /\ ticks w' = (8 + ticks w)%nat
    /\ AsyncStorage w' = <["asyncKey" := JSON_stringify (data (sizeOf b))]> (AsyncStorage w)
    /\ storage w' = <["mmkvKey" := JSON_stringify (data (sizeOf b))]> (storage w).

Lemma presses_run (bs : list Button) (results : list R) (w : World) :
  exists rs w',
    presses onPress bs results w = (Return (results ++ rs)%list, w')
    /\ List.map size rs = List.map sizeOf bs
    /\ Forall (fun r => bars_measured w (chart r)) rs
    /\ clock w' = clock w /\ ticks w' = (8 * length bs + ticks w)%nat
    /\ (AsyncStorage w', storage w') = stores_after sizeOf bs w.
Proof.
  revert results w. induction bs as [|b bs IH]; intros results w.
  - exists [], w. rewrite app_nil_r. repeat split. constructor.
  - destruct (onPress_run b results w) as (r & w1 & H1 & Hsz & Hbars & Hc & Ht & Ha & Hs).
    destruct (IH (results ++ [r])%list w1) as (rs & w' & H & Hszs & Hall & Hc' & Ht' & Hst).
    exists (r :: rs), w'. split.
    { simpl presses. rewrite (bind_Return _ _ _ _ _ H1), H.
      now rewrite <- app_assoc. }
    split; [simpl; now rewrite Hsz, Hszs|].
    split.
    { constructor; [exact Hbars|].
      eapply Forall_impl; [exact Hall|]. intros x Hx.
      now apply (bars_measured_shift w w1 8). }
    split; [congruence|]. split; [rewrite Ht', Ht; simpl; lia|].
    rewrite Hst. now apply stores_after_cons.
Qed.

End Session.

(** ** More facts on binary64 arithmetic *)

Lemma abs_not_below_zero (x : float) : (abs x <? 0)%float = false.
Proof.
  rewrite FloatAxioms.ltb_spec, abs_spec. change (Prim2SF 0) with (S754_zero false).
  destruct (Prim2SF x) as [s|s| |s m e]; reflexivity.
Qed.

Lemma is_zero_cases (x : float) :
  (x =? 0)%float = true -> x = PrimFloat.zero \/ x = neg_zero.
Proof.
  rewrite FloatAxioms.eqb_spec. change (Prim2SF 0) with (S754_zero false).
  intros H. destruct (Prim2SF x) as [s|s| |s m e] eqn:E.
  - destruct s; [right | left]; apply Prim2SF_inj; rewrite E; reflexivity.
  - destruct s; discriminate H.
  - discriminate H.
  - destruct s; discriminate H.
Qed.

(** A number above zero is a positive finite number or plus infinity. *)
Lemma above_zero_cases (x : float) :
  (0 <? x)%float = true ->
  Prim2SF x = S754_infinity false \/ exists m e, Prim2SF x = S754_finite false m e.
Proof.
  rewrite FloatAxioms.ltb_spec. change (Prim2SF 0) with (S754_zero false).
  destruct (Prim2SF x) as [s|s| |s m e]; try discriminate.
  - destruct s; [discriminate | now left].
  - destruct s; [discriminate | right; eauto].
Qed.

(** 0% when there is no difference, NaN when both timings are zero, and
    plus infinity when one timing is zero and the other is above it. *)
Lemma percentage_both_zero (a m : float) :
  (a =? 0)%float = true -> (m =? 0)%float = true ->
  (if a <? m then abs (a - m) / a * 100 else abs (a - m) / m * 100)%float = nan.
Proof.
  intros Ha Hm.
  destruct (is_zero_cases a Ha) as [-> | ->], (is_zero_cases m Hm) as [-> | ->];
    reflexivity.
Qed.

Lemma percentage_zero_divisor_l (m : float) :
  (0 <? m)%float = true ->
  (if 0 <? m then abs (0 - m) / 0 * 100 else abs (0 - m) / m * 100)%float = infinity.
Proof.
  intros Hm. rewrite Hm.
  enough (E : (abs (0 - m) / 0)%float = infinity) by now rewrite E.
  apply Prim2SF_inj. rewrite div_spec, abs_spec, sub_spec.
  change (Prim2SF 0) with (S754_zero false).
  change (Prim2SF infinity) with (S754_infinity false).
  destruct (above_zero_cases m Hm) as [-> | (mm & e & ->)]; reflexivity.
Qed.

Lemma percentage_zero_divisor_r (a : float) :
  (0 <? a)%float = true ->
  (if a <? 0 then abs (a - 0) / a * 100 else abs (a - 0) / 0 * 100)%float = infinity.
Proof.
  intros Ha.
  assert (L : (a <? 0)%float = false).
  { rewrite FloatAxioms.ltb_spec. change (Prim2SF 0) with (S754_zero false).
    destruct (above_zero_cases a Ha) as [-> | (mm & e & ->)]; reflexivity. }
  rewrite L.
  enough (E : (abs (a - 0) / 0)%float = infinity) by now rewrite E.
  apply Prim2SF_inj. rewrite div_spec, abs_spec, sub_spec.
  change (Prim2SF 0) with (S754_zero false).
  change (Prim2SF infinity) with (S754_infinity false).
  destruct (above_zero_cases a Ha) as [-> | (mm & e & ->)]; reflexivity.
Qed.

Lemma percentage_equal (a : float) :
  is_finite a = true -> (0 <? a)%float = true ->
  (if a <? a then abs (a - a) / a * 100 else abs (a - a) / a * 100)%float = 0%float.
Proof.
  intros Fa Ha.
  enough (E : (abs (a - a) / a)%float = 0%float) by (rewrite E; now destruct (a <? a)%float).
  apply Prim2SF_inj. rewrite div_spec, abs_spec, sub_spec.
  change (Prim2SF 0) with (S754_zero false).
  apply finite_Prim2SF in Fa.
  destruct (above_zero_cases a Ha) as [E | (mm & e & E)]; rewrite E in *;
    [discriminate Fa|].
  unfold SF64sub, SFsub. cbn [cond_Zopp]. rewrite Z.sub_diag. reflexivity.
Qed.

(** With -0 for the zero timing the quotient is minus infinity. *)
Lemma percentage_neg_zero_divisor_l (m : float) :
  (0 <? m)%float = true ->
  (if neg_zero <? m then abs (neg_zero - m) / neg_zero * 100
   else abs (neg_zero - m) / m * 100)%float = neg_infinity.
Proof.
  intros Hm.
  assert (L : (neg_zero <? m)%float = true).
  { rewrite FloatAxioms.ltb_spec. change (Prim2SF neg_zero) with (S754_zero true).
    destruct (above_zero_cases m Hm) as [-> | (mm & e & ->)]; reflexivity. }
  rewrite L.
  enough (E : (abs (neg_zero - m) / neg_zero)%float = neg_infinity) by now rewrite E.
  apply Prim2SF_inj. rewrite div_spec, abs_spec, sub_spec.
  change (Prim2SF neg_zero) with (S754_zero true).
  change (Prim2SF neg_infinity) with (S754_infinity true).
  destruct (above_zero_cases m Hm) as [-> | (mm & e & ->)]; reflexivity.
Qed.

Lemma percentage_neg_zero_divisor_r (a : float) :
  (0 <? a)%float = true ->
  (if a <? neg_zero then abs (a - neg_zero) / a * 100
   else abs (a - neg_zero) / neg_zero * 100)%float = neg_infinity.
Proof.
  intros Ha.
  assert (L : (a <? neg_zero)%float = false).
  { rewrite FloatAxioms.ltb_spec. change (Prim2SF neg_zero) with (S754_zero true).
    destruct (above_zero_cases a Ha) as [-> | (mm & e & ->)]; reflexivity. }
  rewrite L.
  enough (E : (abs (a - neg_zero) / neg_zero)%float = neg_infinity) by now rewrite E.
  apply Prim2SF_inj. rewrite div_spec, abs_spec, sub_spec.
  change (Prim2SF neg_zero) with (S754_zero true).
  change (Prim2SF neg_infinity) with (S754_infinity true).
  destruct (above_zero_cases a Ha) as [-> | (mm & e & ->)]; reflexivity.
Qed.

(** One timing is a zero, the other is above zero: the quotient is
    infinite, with the sign of the zero. *)
Lemma percentage_zero_l (a m : float) :
  (a =? 0)%float = true -> (0 <? m)%float = true ->
  (if a <? m then abs (a - m) / a * 100 else abs (a - m) / m * 100)%float
  = if is_neg_zero a then neg_infinity else infinity.
Proof.
  intros Ha Hm. destruct (is_zero_cases a Ha) as [-> | ->].
  - now apply percentage_zero_divisor_l.
  - now apply percentage_neg_zero_divisor_l.
Qed.

Lemma percentage_zero_r (a m : float) :
  (m =? 0)%float = true -> (0 <? a)%float = true ->
  (if a <? m then abs (a - m) / a * 100 else abs (a - m) / m * 100)%float
  = if is_neg_zero m then neg_infinity else infinity.
Proof.
  intros Hm Ha. destruct (is_zero_cases m Hm) as [-> | ->].
  - now apply percentage_zero_divisor_r.
  - now apply percentage_neg_zero_divisor_r.
Qed.

Section SpecFloatSigns.

Variables prec emax : Z.

Lemma SFadd_nonneg (x y : spec_float) :
  SFnonneg x -> SFnonneg y -> SFnonneg (SFadd prec emax x y).
Proof.
  unfold SFnonneg. intros Hx Hy.
  destruct x as [sx|sx| |sx mx ex], y as [sy|sy| |sy my ey];
    try discriminate; try exact Hx; try exact Hy.
  - destruct sx, sy; reflexivity.
  - destruct sx, sy; try discriminate; reflexivity.
  - destruct sx, sy; try discriminate.
    unfold SFadd. apply binary_normalize_nonneg. simpl. lia.
Qed.

Lemma SFdiv_core_binary_nonneg (m1 : positive) (e1 : Z) (m2 : positive) (e2 : Z) :
  (0 <= (SFdiv_core_binary prec emax (Z.pos m1) e1 (Z.pos m2) e2).1.1)%Z.
Proof.
  unfold SFdiv_core_binary.
  set (s := (e1 - e2 - _)%Z).
  set (m' := match s with Z0 => Z.pos m1 | Z.pos _ => Z.shiftl (Z.pos m1) s | Z.neg _ => 0%Z end).
  assert (Hm : (0 <= m')%Z).
  { subst m'. destruct s; try lia. apply Z.shiftl_nonneg. lia. }
  pose proof (Z_div_mod m' (Z.pos m2) ltac:(lia)) as H.
  destruct (Z.div_eucl m' (Z.pos m2)) as [q r]. simpl. nia.
Qed.

Lemma SFdiv_nonneg (x : spec_float) (my : positive) (ey : Z) :
  SFnonneg x -> SFnonneg (SFdiv prec emax x (S754_finite false my ey)).
Proof.
  unfold SFnonneg. intros Hx.
  destruct x as [sx|sx| |sx mx ex]; try discriminate.
  - destruct sx; reflexivity.
  - destruct sx; [discriminate | reflexivity].
  - destruct sx; [discriminate|]. unfold SFdiv.
    pose proof (SFdiv_core_binary_nonneg mx ex my ey) as H.
    destruct (SFdiv_core_binary prec emax (Z.pos mx) ex (Z.pos my) ey) as [[mz ez] lz].
    apply binary_round_aux_nonneg. exact H.
Qed.

Lemma binary_round_aux_unsigned (m e : Z) (l : location) :
  SFunsigned (binary_round_aux prec emax false m e l) = true.
Proof.
  unfold binary_round_aux.
  destruct (shr_fexp prec emax m e l) as [mrs' e'].
  destruct (shr_fexp prec emax _ e' loc_Exact) as [mrs'' e''].
  destruct (shr_m mrs''); try reflexivity.
  destruct (e'' <=? emax - prec)%Z; reflexivity.
Qed.

(** The difference of two positive numbers, the first not below the
    second, has its sign bit clear. *)
Lemma SFsub_unsigned (mx : positive) (ex : Z) (my : positive) (ey : Z) :
  SpecFloat.valid_binary prec emax (S754_finite false mx ex) = true ->
  SpecFloat.valid_binary prec emax (S754_finite false my ey) = true ->
  SFleb (S754_finite false my ey) (S754_finite false mx ex) = true ->
  SFunsigned (SFsub prec emax (S754_finite false mx ex) (S754_finite false my ey)) = true.
Proof.
  intros Vx Vy Hle. simpl in Vx, Vy. unfold bounded in Vx, Vy.
  apply andb_prop in Vx as [Cx _], Vy as [Cy _].
  unfold SFsub. cbn [cond_Zopp]. rewrite !shl_align_fst by lia.
  set (D := (_ - _)%Z).
  assert (HD : (0 <= D)%Z).
  { subst D. unfold SFleb, SFcompare in Hle.
    destruct (Z.compare_spec ey ex) as [E|E|E]; try discriminate.
    - subst ey. rewrite Z.min_id, Z.sub_diag, Z.pow_0_r.
      destruct (Pos.compare_cont Eq my mx) eqn:C; try discriminate;
        fold (Pos.compare my mx) in C.
      + apply Pos.compare_eq in C. lia.
      + change (my < mx)%positive in C. lia.
    - rewrite Z.min_r by lia. rewrite Z.sub_diag, Z.pow_0_r.
      pose proof (canonical_exponent_lt prec emax mx ex my ey Cx Cy E). lia. }
  destruct D as [|p|p]; try lia; [reflexivity|].
  unfold binary_normalize, binary_round.
  destruct (shl_align p _ _) as [mz ez]. apply binary_round_aux_unsigned.
Qed.

Lemma SFdiv_unsigned (x y : spec_float) :
  SFunsigned x = true -> SFunsigned y = true ->
  SFunsigned (SFdiv prec emax x y) = true.
Proof.
  intros Hx Hy.
  destruct x as [sx|sx| |sx mx ex], y as [sy|sy| |sy my ey]; try reflexivity;
    simpl in Hx, Hy; apply negb_true_iff in Hx, Hy; subst; try reflexivity.
  unfold SFdiv. simpl xorb.
  destruct (SFdiv_core_binary prec emax (Z.pos mx) ex (Z.pos my) ey) as [[mz ez] lz].
  apply binary_round_aux_unsigned.
Qed.

Lemma SFmul_unsigned (x y : spec_float) :
  SFunsigned x = true -> SFunsigned y = true ->
  SFunsigned (SFmul prec emax x y) = true.
Proof.
  intros Hx Hy.
  destruct x as [sx|sx| |sx mx ex], y as [sy|sy| |sy my ey]; try reflexivity;
    simpl in Hx, Hy; apply negb_true_iff in Hx, Hy; subst; try reflexivity.
  unfold SFmul. simpl xorb. apply binary_round_aux_unsigned.
Qed.

Lemma SFabs_unsigned (x : spec_float) : SFunsigned (SFabs x) = true.
Proof. destruct x; reflexivity. Qed.

Lemma SFunsigned_not_below_zero (x : spec_float) :
  SFunsigned x = true -> SFltb x (S754_zero false) = false.
Proof. destruct x as [[]|[]| |[] m e]; try discriminate; reflexivity. Qed.

End SpecFloatSigns.

(** The mean of two numbers that are not below zero is not below zero. *)
Lemma float_mean_nonneg (a b : float) :
  (0 <=? a)%float = true -> (0 <=? b)%float = true ->
  (0 <=? (a + b) / 2)%float = true.
Proof.
  rewrite !FloatAxioms.leb_spec, div_spec, add_spec.
  change (Prim2SF 0) with (S754_zero false).
  change (Prim2SF 2) with (S754_finite false 4503599627370496 (-51)).
  intros Ha Hb. apply SFdiv_nonneg, SFadd_nonneg; assumption.
Qed.

(** The time between two positive readings in order has its sign bit
    clear. *)
Lemma float_sub_unsigned (s e : float) :
  is_finite s = true -> is_finite e = true ->
  (0 <? s)%float = true -> (s <=? e)%float = true ->
  SFunsigned (Prim2SF (e - s)) = true.
Proof.
  intros Fs Fe Ps Hle. rewrite FloatAxioms.leb_spec in Hle. rewrite sub_spec.
  pose proof (Prim2SF_valid s) as Vs. pose proof (Prim2SF_valid e) as Ve.
  apply finite_Prim2SF in Fs, Fe.
  destruct (above_zero_cases s Ps) as [Es | (ms & es & Es)]; rewrite Es in *;
    [discriminate Fs|].
  destruct (Prim2SF e) as [se|se| |se me ee]; try discriminate.
  destruct se; [discriminate Hle|]. now apply SFsub_unsigned.
Qed.

(** With positive timings the percentage is never below zero. *)
Lemma percentage_not_below_zero (a m : float) :
  SFunsigned (Prim2SF a) = true -> SFunsigned (Prim2SF m) = true ->
  ((if a <? m then abs (a - m) / a * 100 else abs (a - m) / m * 100) <? 0)%float = false.
Proof.
  intros Ha Hm. rewrite FloatAxioms.ltb_spec.
  change (Prim2SF 0) with (S754_zero false).
  apply SFunsigned_not_below_zero.
  destruct (a <? m)%float; rewrite mul_spec, div_spec, abs_spec;
    (apply SFmul_unsigned; [apply SFdiv_unsigned; [apply SFabs_unsigned | assumption]
                           | reflexivity]).
Qed.

(** ** Any number of presses *)

(** X6: whatever buttons are pressed, one after the other, every handler
    returns; the history keeps what it had and gains one record per press,
    in the order of the presses, each with the size of its button, and
    each press takes eight clock readings.  In [src/App.tsx] the sizes are
    10, 1000 and 100000, in [src/unnamed/part_000] 10, 1000 and 10000. *)
Theorem presses_history (bs : list Button) (w : World) :
  (forall results,
      exists rs w',
        presses App_onPress bs results w = (Return (results ++ rs)%list, w')
        /\ List.map App.size rs = List.map App_buttonSize bs
        /\ ticks w' = (8 * length bs + ticks w)%nat)
  /\ (forall results,
      exists rs w',
        presses Part000_onPress bs results w = (Return (results ++ rs)%list, w')
        /\ List.map Part000.size rs = List.map Part000_buttonSize bs
        /\ ticks w' = (8 * length bs + ticks w)%nat).
Proof.
  split; intros results.
  - destruct (presses_run App_onPress App_buttonSize App.size App_barChartData
                App_onPress_run bs results w) as (rs & w' & H & Hs & _ & _ & Ht & _).
    eauto.
  - destruct (presses_run Part000_onPress Part000_buttonSize Part000.size
                Part000_barChartData Part000_onPress_run bs results w)
      as (rs & w' & H & Hs & _ & _ & Ht & _).
    eauto.
Qed.

(** X7: after any presses the stores hold the payload of the last test
    and of no earlier one: a read of either key decodes to the payload of
    the size of the last button pressed, and every other key of both
    stores is as it was before the first press. *)
Theorem stores_after_presses (bs : list Button) (b : Button)
    (results : list App.BenchmarkResult) (w : World) :
  last bs = Some b ->
  exists rs w',
    presses App_onPress bs results w = (Return (results ++ rs)%list, w')
    /\ decoded (asyncStorageRead "asyncKey" w').1 = inr (data (App_buttonSize b))
    /\ decoded (mmkvRead "mmkvKey" w').1 = inr (data (App_buttonSize b))
    /\ delete "asyncKey" (AsyncStorage w') = delete "asyncKey" (AsyncStorage w)
    /\ delete "mmkvKey" (storage w') = delete "mmkvKey" (storage w).
Proof.
  intros Hl.
  destruct (presses_run App_onPress App_buttonSize App.size App_barChartData
              App_onPress_run bs results w) as (rs & w' & H & _ & _ & _ & _ & Hst).
  unfold stores_after in Hst. rewrite Hl in Hst.
  pose proof (f_equal fst Hst) as Ha. pose proof (f_equal snd Hst) as Hs.
  cbn [fst snd] in Ha, Hs.
  exists rs, w'. split; [exact H|].
  rewrite asyncStorageRead_run, mmkvRead_run. cbv zeta.
  rewrite Ha, Hs, !lookup_insert_eq, !delete_insert_eq.
  rewrite (JSON_parse_stringify _ (data_plain _)). repeat split.
Qed.

Lemma stores_after_presses_witness :
  last [MediumTest; SmallTest] = Some SmallTest
  /\ exists rs w',
       presses App_onPress [MediumTest; SmallTest] [] stale_world = (Return rs, w')
       /\ decoded (asyncStorageRead "asyncKey" w').1 = inr (data 10)
       /\ decoded (mmkvRead "mmkvKey" w').1 = inr (data 10)
       /\ delete "asyncKey" (AsyncStorage w') = delete "asyncKey" (AsyncStorage stale_world)
       /\ delete "mmkvKey" (storage w') = delete "mmkvKey" (storage stale_world).
Proof.
  split; [reflexivity|].
  exact (stores_after_presses [MediumTest; SmallTest] SmallTest [] stale_world eq_refl).
Defined.

(** X8: with a monotonic clock, after any presses from the empty history
    the screen shows one chart per press and nothing when no button was
    pressed; every chart has one bar per label, and no bar is below zero. *)
Theorem charts_after_presses (bs : list Button) (w : World) :
  clock_monotonic w ->
  exists rs w',
    presses App_onPress bs [] w = (Return rs, w')
    /\ match App_charts rs with
       | None => bs = []
       | Some charts =>
           length charts = length bs
           /\ Forall (fun c =>
                        Forall (fun bars =>
                                  length bars = length (labels c)
                                  /\ Forall (fun x => (0 <=? x)%float = true) bars)
                          (datasets c))
                charts
       end.
Proof.
  intros Hc.
  assert (He : forall i, (0 <=? elapsed w i)%float = true).
  { intros i. unfold elapsed, reading.
    destruct (Hc (i + ticks w)%nat) as [F1 L]. destruct (Hc (S i + ticks w)%nat) as [F2 _].
    now apply float_sub_nonneg. }
  destruct (presses_run App_onPress App_buttonSize App.size App_barChartData
              App_onPress_run bs [] w) as (rs & w' & H & Hs & Hall & _).
  exists rs, w'. split; [exact H|].
  apply (f_equal (@length nat)) in Hs. rewrite !length_map in Hs.
  unfold App_charts. destruct rs as [|r rs].
  - simpl. destruct bs; [reflexivity | discriminate Hs].
  - cbn [length Nat.ltb Nat.leb]. split; [now rewrite length_map|].
    apply Forall_fmap. eapply Forall_impl; [exact Hall|].
    intros x [i Hx]. unfold compose. rewrite Hx. repeat constructor; apply He.
Qed.

Lemma charts_after_presses_witness :
  clock_monotonic example_world
  /\ exists rs w',
       presses App_onPress [SmallTest; LargeTest] [] example_world = (Return rs, w')
       /\ match App_charts rs with
          | None => [SmallTest; LargeTest] = []
          | Some charts =>
              length charts = 2%nat
              /\ Forall (fun c =>
                           Forall (fun bars =>
                                     length bars = length (labels c)
                                     /\ Forall (fun x => (0 <=? x)%float = true) bars)
                             (datasets c))
                   charts
          end.
Proof.
  split; [exact example_clock_monotonic|].
  exact (charts_after_presses [SmallTest; LargeTest] example_world example_clock_monotonic).
Defined.

(** ** The numbers of a result *)

(** X9: in every world, and so even when the clock runs backwards, the
    two difference fields of a result are never below zero; in both
    revisions of the source. *)
Theorem differences_not_below_zero (size : nat) (w : World) :
  (exists r w',
      App.runBenchmark size w = (Return r, w')
      /\ (App.writeDifference r <? 0)%float = false
      /\ (App.readDifference r <? 0)%float = false)
  /\ (exists r w',
      Part000.runBenchmark size w = (Return r, w')
      /\ (Part000.writeDifference r <? 0)%float = false
      /\ (Part000.readDifference r <? 0)%float = false).
Proof.
  split.
  - eexists _, _. split; [apply App_runBenchmark_run|].
    split; apply abs_not_below_zero.
  - eexists _, _. split; [apply Part000_runBenchmark_run|].
    split; apply abs_not_below_zero.
Qed.

(** X10: with a monotonic clock the two averages of a result of
    [src/App.tsx] are not below zero. *)
Theorem averages_nonnegative (size : nat) (w : World) :
  clock_monotonic w ->
  exists r w',
    App.runBenchmark size w = (Return r, w')
    /\ (0 <=? App.asyncAvg r)%float = true
    /\ (0 <=? App.mmkvAvg r)%float = true.
Proof.
  intros Hc.
  assert (He : forall i, (0 <=? elapsed w i)%float = true).
  { intros i. unfold elapsed, reading.
    destruct (Hc (i + ticks w)%nat) as [F1 L]. destruct (Hc (S i + ticks w)%nat) as [F2 _].
    now apply float_sub_nonneg. }
  eexists _, _. split; [apply App_runBenchmark_run|].
  split; apply float_mean_nonneg; apply He.
Qed.

Lemma averages_nonnegative_witness :
  clock_monotonic example_world
  /\ exists r w',
       App.runBenchmark 3 example_world = (Return r, w')
       /\ (0 <=? App.asyncAvg r)%float = true
       /\ (0 <=? App.mmkvAvg r)%float = true.
Proof.
  split; [exact example_clock_monotonic|].
  exact (averages_nonnegative 3 example_world example_clock_monotonic).
Defined.

(** X11: in [src/unnamed/part_000], when both write timings are zero the
    write percentage is NaN (zero divided by zero), and likewise for the
    read percentage when both read timings are zero. *)
Theorem percentage_of_zero_timings (size : nat) (w : World)
    (r : Part000.BenchmarkResult) (w' : World) :
  Part000.runBenchmark size w = (Return r, w') ->
  ((Part000.asyncWriteTime r =? 0)%float = true ->
   (Part000.mmkvWriteTime r =? 0)%float = true ->
   Part000.writePercentageDifference r = nan)
  /\ ((Part000.asyncReadTime r =? 0)%float = true ->
      (Part000.mmkvReadTime r =? 0)%float = true ->
      Part000.readPercentageDifference r = nan).
Proof.
  rewrite Part000_runBenchmark_run. cbv zeta. intros [= <- _].
  split; apply percentage_both_zero.
Qed.

Lemma percentage_of_zero_timings_witness :
  exists r w',
    Part000.runBenchmark 2 still_world = (Return r, w')
    /\ (Part000.asyncWriteTime r =? 0)%float = true
    /\ (Part000.mmkvWriteTime r =? 0)%float = true
    /\ Part000.writePercentageDifference r = nan
    /\ Part000.readPercentageDifference r = nan.
Proof.
  eexists _, _. split; [apply Part000_runBenchmark_run|].
  split; [reflexivity|]. split; [reflexivity|].
  destruct (percentage_of_zero_timings 2 still_world _ _
              (Part000_runBenchmark_run 2 still_world)) as [Hw Hr].
  split; [apply Hw | apply Hr]; reflexivity.
Defined.

(** X12: in [src/unnamed/part_000], when one of the two write timings is
    a zero and the other is above zero, the write percentage is infinite
    (a division by zero): plus infinity when the zero timing is +0 and
    minus infinity when it is -0; likewise for the read percentage. *)
Theorem percentage_of_one_zero_timing (size : nat) (w : World)
    (r : Part000.BenchmarkResult) (w' : World) :
  Part000.runBenchmark size w = (Return r, w') ->
  ((Part000.asyncWriteTime r =? 0)%float = true ->
   (0 <? Part000.mmkvWriteTime r)%float = true ->
   Part000.writePercentageDifference r
   = if is_neg_zero (Part000.asyncWriteTime r) then neg_infinity else infinity)
  /\ ((Part000.mmkvWriteTime r =? 0)%float = true ->
      (0 <? Part000.asyncWriteTime r)%float = true ->
      Part000.writePercentageDifference r
      = if is_neg_zero (Part000.mmkvWriteTime r) then neg_infinity else infinity)
  /\ ((Part000.asyncReadTime r =? 0)%float = true ->
      (0 <? Part000.mmkvReadTime r)%float = true ->
      Part000.readPercentageDifference r
      = if is_neg_zero (Part000.asyncReadTime r) then neg_infinity else infinity)
  /\ ((Part000.mmkvReadTime r =? 0)%float = true ->
      (0 <? Part000.asyncReadTime r)%float = true ->
      Part000.readPercentageDifference r
      = if is_neg_zero (Part000.mmkvReadTime r) then neg_infinity else infinity).
Proof.
  rewrite Part000_runBenchmark_run. cbv zeta. intros [= <- _].
  cbn [Part000.asyncWriteTime Part000.mmkvWriteTime Part000.asyncReadTime
       Part000.mmkvReadTime Part000.writePercentageDifference
       Part000.readPercentageDifference].
  repeat split; first [apply percentage_zero_l | apply percentage_zero_r].
Qed.

(** In [instant_world] the AsyncStorage write and the MMKV read take +0;
    in [neg_zero_world] the AsyncStorage write is timed -0. *)
Lemma percentage_of_one_zero_timing_witness :
  (exists r w',
      Part000.runBenchmark 2 instant_world = (Return r, w')
      /\ (Part000.asyncWriteTime r =? 0)%float = true
      /\ (0 <? Part000.mmkvWriteTime r)%float = true
      /\ (Part000.mmkvReadTime r =? 0)%float = true
      /\ (0 <? Part000.asyncReadTime r)%float = true
      /\ Part000.writePercentageDifference r = infinity
      /\ Part000.readPercentageDifference r = infinity)
  /\ (exists r w',
      Part000.runBenchmark 2 neg_zero_world = (Return r, w')
      /\ (Part000.asyncWriteTime r =? 0)%float = true
      /\ (0 <? Part000.mmkvWriteTime r)%float = true
      /\ Part000.writePercentageDifference r = neg_infinity).
Proof.
  split.
  - eexists _, _. split; [apply Part000_runBenchmark_run|].
    do 4 (split; [reflexivity|]).
    destruct (percentage_of_one_zero_timing 2 instant_world _ _
                (Part000_runBenchmark_run 2 instant_world)) as (Hw & _ & _ & Hr).
    split; [exact (Hw eq_refl eq_refl) | exact (Hr eq_refl eq_refl)].
  - eexists _, _. split; [apply Part000_runBenchmark_run|].
    do 2 (split; [reflexivity|]).
    destruct (percentage_of_one_zero_timing 2 neg_zero_world _ _
                (Part000_runBenchmark_run 2 neg_zero_world)) as (Hw & _).
    exact (Hw eq_refl eq_refl).
Defined.

(** X13: in [src/unnamed/part_000], when the two write timings are the
    same number above zero the write percentage is 0, and likewise for
    the read percentage. *)
Theorem percentage_of_equal_timings (size : nat) (w : World)
    (r : Part000.BenchmarkResult) (w' : World) :
  Part000.runBenchmark size w = (Return r, w') ->
  (Part000.asyncWriteTime r = Part000.mmkvWriteTime r ->
   is_finite (Part000.asyncWriteTime r) = true ->
   (0 <? Part000.asyncWriteTime r)%float = true ->
   Part000.writePercentageDifference r = 0%float)
  /\ (Part000.asyncReadTime r = Part000.mmkvReadTime r ->
      is_finite (Part000.asyncReadTime r) = true ->
      (0 <? Part000.asyncReadTime r)%float = true ->
      Part000.readPercentageDifference r = 0%float).
Proof.
  rewrite Part000_runBenchmark_run. cbv zeta. intros [= <- _].
  cbn [Part000.asyncWriteTime Part000.mmkvWriteTime Part000.asyncReadTime
       Part000.mmkvReadTime Part000.writePercentageDifference
       Part000.readPercentageDifference].
  split; intros <-; apply percentage_equal.
Qed.

Lemma percentage_of_equal_timings_witness :
  exists r w',
    Part000.runBenchmark 2 even_world = (Return r, w')
    /\ Part000.asyncWriteTime r = Part000.mmkvWriteTime r
    /\ is_finite (Part000.asyncWriteTime r) = true
    /\ (0 <? Part000.asyncWriteTime r)%float = true
    /\ Part000.writePercentageDifference r = 0%float
    /\ Part000.readPercentageDifference r = 0%float.
Proof.
  eexists _, _. split; [apply Part000_runBenchmark_run|].
  do 3 (split; [reflexivity|]).
  destruct (percentage_of_equal_timings 2 even_world _ _
              (Part000_runBenchmark_run 2 even_world)) as [Hw Hr].
  split; [apply Hw | apply Hr]; reflexivity.
Defined.

(** X14: in [src/unnamed/part_000], with a monotonic clock whose readings
    are above zero, neither percentage is ever below zero. *)
Theorem percentages_not_below_zero (size : nat) (w : World) :
  clock_monotonic w -> clock_positive w ->
  exists r w',
    Part000.runBenchmark size w = (Return r, w')
    /\ (Part000.writePercentageDifference r <? 0)%float = false
    /\ (Part000.readPercentageDifference r <? 0)%float = false.
Proof.
  intros Hc Hp.
  assert (He : forall i, SFunsigned (Prim2SF (elapsed w i)) = true).
  { intros i. unfold elapsed, reading.
    destruct (Hc (i + ticks w)%nat) as [F1 L]. destruct (Hc (S i + ticks w)%nat) as [F2 _].
    apply float_sub_unsigned; auto. }
  eexists _, _. split; [apply Part000_runBenchmark_run|].
  split; apply percentage_not_below_zero; apply He.
Qed.

Lemma example_clock_positive : clock_positive example_world.
Proof.
  intros i. do 9 (destruct i as [|i]; [reflexivity|]). reflexivity.
Qed.

Lemma percentages_not_below_zero_witness :
  clock_monotonic example_world /\ clock_positive example_world
  /\ exists r w',
       Part000.runBenchmark 3 example_world = (Return r, w')
       /\ (Part000.writePercentageDifference r <? 0)%float = false
       /\ (Part000.readPercentageDifference r <? 0)%float = false.
Proof.
  split; [exact example_clock_monotonic|]. split; [exact example_clock_positive|].
  exact (percentages_not_below_zero 3 example_world
           example_clock_monotonic example_clock_positive).
Defined.
